(** * Housing price analysis: a shallow embedding of [housing_analysis.py]

    The script reads a table, checks that four columns are present, prints an
    overview, and computes three statistics.  The table operations it calls
    ([groupby], [mean], boolean row selection, [corr]) are modelled by what
    they compute on a typed column store.  A number is an IEEE 754 double, as
    in a [float64] column: a primitive float, with NaN for a missing cell.
    What the script itself computes on numbers (a difference, [int(...)]) is
    written out on doubles; the numerical routines of pandas and numpy, whose
    order of summation is their own business, are a parameter of the
    analyses. *)

From Stdlib Require Import List String Ascii Bool Arith ZArith NArith Lia.
From Stdlib Require Import QArith Sorted.
From Stdlib Require Import Floats.
Import ListNotations.

Set Implicit Arguments.
Set Warnings "-inexact-float".

(* ------------------------------------------------------------------ *)
(** ** Exceptions and results *)

Inductive exn : Type :=
| FileNotFoundError (msg : string)
| KeyError (msg : string)
| TypeError (msg : string)
| ValueError (msg : string)
| OverflowError (msg : string)
| ParserError (msg : string).

Inductive result (A : Type) : Type :=
| Ok (a : A)
| Raise (e : exn).

Arguments Ok {A} a.
Arguments Raise {A} e.

Definition bind {A B : Type} (r : result A) (k : A -> result B) : result B :=
  match r with
  | Ok a => k a
  | Raise e => Raise e
  end.

Declare Scope result_scope.
Delimit Scope result_scope with result.
Notation "x <- r ;; k" := (bind r (fun x => k))
  (at level 61, r at next level, right associativity) : result_scope.

(* ------------------------------------------------------------------ *)
(** ** Tables *)

(** A cell of a numeric column is a double, NaN when it is missing; a cell of
    a text column is a string or missing.  A column of integers is held by
    the doubles of its values, which is what the means and the coefficient
    are computed from. *)
Inductive column : Type :=
| NumCol (cells : list float)
| StrCol (cells : list (option string)).

(** A data frame: named columns in file order. *)
Definition DataFrame : Type := list (string * column).

Definition columns (df : DataFrame) : list string := map fst df.

Definition col_length (c : column) : nat :=
  match c with
  | NumCol cells => List.length cells
  | StrCol cells => List.length cells
  end.

(** The invariant of the data model: names are unique and all columns have
    the same number of rows. *)
Definition well_formed (df : DataFrame) : Prop :=
  NoDup (columns df) /\
  forall c1 c2, In c1 (map snd df) -> In c2 (map snd df) ->
                col_length c1 = col_length c2.

(** [col in df.columns] *)
Definition has_column (df : DataFrame) (col : string) : bool :=
  existsb (String.eqb col) (columns df).

(** [df[name]]: the first column of that name, [KeyError(name)] when there is
    none. *)
Fixpoint find_column (df : DataFrame) (name : string) : option column :=
  match df with
  | [] => None
  | (n, c) :: rest => if String.eqb name n then Some c else find_column rest name
  end.

Definition get_column (df : DataFrame) (name : string) : result column :=
  match find_column df name with
  | Some c => Ok c
  | None => Raise (KeyError name)
  end.


(* ------------------------------------------------------------------ *)
(** ** Index values and their order *)

(** A group key is a non-missing cell of the group column. *)
Inductive scalar : Type :=
| SNum (x : float)
| SStr (s : string).

Definition cells_of (c : column) : list (option scalar) :=
  match c with
  | NumCol cells => map (fun x => if is_nan x then None else Some (SNum x)) cells
  | StrCol cells => map (option_map SStr) cells
  end.

(** The order of two doubles as a sort sees it: the order of IEEE 754, in
    which the two zeros are equal, with NaN after every number. *)
Definition float_compare (x y : float) : comparison :=
  match PrimFloat.compare x y with
  | FEq => Eq
  | FLt => Lt
  | FGt => Gt
  | FNotComparable => if is_nan x then (if is_nan y then Eq else Gt) else Lt
  end.

Definition scalar_compare (a b : scalar) : comparison :=
  match a, b with
  | SNum x, SNum y => float_compare x y
  | SStr s, SStr t => String.compare s t
  | SNum _, SStr _ => Lt
  | SStr _, SNum _ => Gt
  end.

Definition scalar_lt (a b : scalar) : Prop := scalar_compare a b = Lt.

Definition scalar_leb (a b : scalar) : bool :=
  match scalar_compare a b with Gt => false | _ => true end.

Definition scalar_eqb (a b : scalar) : bool :=
  match scalar_compare a b with Eq => true | _ => false end.

(** A series: index values with their values, in index order. *)
Definition Series : Type := list (scalar * float).

(* ------------------------------------------------------------------ *)
(** ** The numerical library *)

(** The routines of pandas and numpy behind [mean] and [corr].  They compute
    in double precision, in an order of summation that depends on the routine
    and on the length of the data, so that a result is a double that need not
    be the exact value, nor the same for the same rows in another order.  On a
    column of texts they fail or not, with a message of their own.  Python's
    [int] reads the digits of every script and its [repr] escapes what is
    not printable; outside ASCII both are the Unicode database's
    knowledge. *)
Record library : Type := mkLibrary {
  (* the mean of the value cells of one group, in the order of the rows *)
  group_mean : list float -> float;
  (* [Series.mean()] of the cells of a numeric series *)
  nanmean : list float -> float;
  (* [np.cov(x, y)]: the variance of [x], the covariance, the variance of [y] *)
  cov : list float -> list float -> float * float * float;
  (* the group mean of a column of texts: a series, or the text of a type error *)
  object_group_mean : list (option scalar) -> list (option string) -> Series + string;
  (* [Series.mean()] of texts: a number, or the text of a type error *)
  object_mean : list (option string) -> float + string;
  (* the text of the value error of [corr] on a column of texts *)
  object_corr_error : column -> column -> string;
  (* [int(s)] of a text that holds characters outside ASCII *)
  int_of_unicode : string -> option Z;
  (* [repr(s)] of a text that holds characters outside ASCII *)
  repr_of_unicode : string -> string
}.

(* ------------------------------------------------------------------ *)
(** ** Rendering of a text, as [repr] does *)

Definition hex_digit (n : N) : ascii :=
  match n with
  | 0%N => "0" | 1%N => "1" | 2%N => "2" | 3%N => "3"
  | 4%N => "4" | 5%N => "5" | 6%N => "6" | 7%N => "7"
  | 8%N => "8" | 9%N => "9" | 10%N => "a" | 11%N => "b"
  | 12%N => "c" | 13%N => "d" | 14%N => "e" | _ => "f"
  end%char.

Definition contains_char (c : ascii) (s : string) : bool :=
  existsb (Ascii.eqb c) (list_ascii_of_string s).

(** The quote [repr] picks: a double quote when the text holds a single
    quote and no double quote, a single quote otherwise. *)
Definition double_quote : ascii := ascii_of_N 34.

Definition repr_quote (s : string) : ascii :=
  if contains_char "'" s && negb (contains_char double_quote s)
  then double_quote else "'"%char.

Definition escape_char (q c : ascii) : string :=
  let n := N_of_ascii c in
  if Ascii.eqb c "\" then "\\"
  else if Ascii.eqb c q then String "\" (String c EmptyString)
  else if N.eqb n 9 then "\t"
  else if N.eqb n 10 then "\n"
  else if N.eqb n 13 then "\r"
  else if (N.ltb n 32 || N.eqb n 127)%bool
       then String "\" (String "x" (String (hex_digit (N.div n 16))
                                      (String (hex_digit (N.modulo n 16)) EmptyString)))
  else String c EmptyString.

Fixpoint escape_string (q : ascii) (s : string) : string :=
  match s with
  | EmptyString => EmptyString
  | String c rest => escape_char q c ++ escape_string q rest
  end.

(** [repr] of a text of ASCII characters. *)
Definition ascii_repr (s : string) : string :=
  let q := repr_quote s in
  String q (escape_string q s ++ String q EmptyString).

Definition is_ascii (s : string) : bool :=
  forallb (fun c => N.ltb (N_of_ascii c) 128) (list_ascii_of_string s).

(* ------------------------------------------------------------------ *)
(** ** The validator *)

(** [missing = [col for col in required if col not in df.columns]] *)
Definition missing_columns (df : DataFrame) (required : list string) : list string :=
  filter (fun col => negb (has_column df col)) required.

Section Validator.

Variable K : library.

(** [repr(s)]: which characters outside ASCII are shown as they are is the
    Unicode database's knowledge. *)
Definition py_repr (s : string) : string :=
  if is_ascii s then ascii_repr s else repr_of_unicode K s.

(** [str(l)] of a list of texts. *)
Definition py_list_repr (l : list string) : string :=
  "[" ++ String.concat ", " (map py_repr l) ++ "]".

Definition validate_columns (df : DataFrame) (required : list string) : result unit :=
  let missing := missing_columns df required in
  match missing with
  | [] => Ok tt
  | _ :: _ => Raise (KeyError ("Missing required columns: " ++ py_list_repr missing))
  end.

End Validator.

(* ------------------------------------------------------------------ *)
(** ** Question 1: average price by number of bedrooms *)

(** One row enters the table of groups, which is kept ordered by key; a key
    that is already there keeps the value it was first seen with. *)
Fixpoint add_obs (k : scalar) (v : float) (groups : list (scalar * list float))
  : list (scalar * list float) :=
  match groups with
  | [] => [(k, [v])]
  | (k', vs) :: rest =>
      match scalar_compare k k' with
      | Lt => (k, [v]) :: groups
      | Eq => (k', vs ++ [v]) :: rest
      | Gt => (k', vs) :: add_obs k v rest
      end
  end.

(** [groupby(key)]: rows with a missing key are dropped, the value cells of
    the others are collected by key, in the order of the rows. *)
Definition add_row (groups : list (scalar * list float)) (row : option scalar * float)
  : list (scalar * list float) :=
  match fst row with
  | Some k => add_obs k (snd row) groups
  | None => groups
  end.

Definition group_rows (keys : list (option scalar)) (vals : list float)
  : list (scalar * list float) :=
  fold_left add_row (combine keys vals) [].

(** [Series.sort_index()]: a stable sort by ascending index. *)
Fixpoint insert_by_index (e : scalar * float) (s : Series) : Series :=
  match s with
  | [] => [e]
  | h :: t => if scalar_leb (fst e) (fst h) then e :: s else h :: insert_by_index e t
  end.

Definition sort_index (s : Series) : Series := fold_right insert_by_index [] s.

(** [df[flag] == label], row by row; a missing cell and a number are never
    equal to a label. *)
Definition eq_label (c : column) (label : string) : list bool :=
  match c with
  | StrCol cells => map (fun x => match x with
                                  | Some s => String.eqb s label
                                  | None => false
                                  end) cells
  | NumCol cells => map (fun _ => false) cells
  end.

(** [series[mask]]: the rows where the mask holds. *)
Fixpoint select (A : Type) (mask : list bool) (vals : list A) : list A :=
  match mask, vals with
  | m :: mask', v :: vals' => if m then v :: select mask' vals' else select mask' vals'
  | _, _ => []
  end.

(** [notna(a)] *)
Definition notna (cells : list float) : list bool :=
  map (fun x => negb (is_nan x)) cells.

(** [m1 & m2], row by row. *)
Fixpoint and_mask (m1 m2 : list bool) : list bool :=
  match m1, m2 with
  | x :: m1', y :: m2' => (x && y)%bool :: and_mask m1' m2'
  | _, _ => []
  end.

(** [np.clip(r, -1, 1)]; NaN passes through. *)
Definition clip (r : float) : float :=
  if (r <? -1)%float then (-1)%float
  else if (1 <? r)%float then 1%float
  else r.

Section Analyses.

Variable K : library.

(** [groupby(key)[value].mean()] *)
Definition groupby_mean (keys : list (option scalar)) (vals : list float) : Series :=
  map (fun g => (fst g, group_mean K (snd g))) (group_rows keys vals).

Definition avg_price_by_bedrooms (df : DataFrame) : result Series :=
  (keys <- get_column df "bedrooms" ;;
   price <- match find_column df "price" with
            | Some c => Ok c
            | None => Raise (KeyError "Column not found: price")
            end ;;
   match price with
   | NumCol vals => Ok (sort_index (groupby_mean (cells_of keys) vals))
   | StrCol cells =>
       match object_group_mean K (cells_of keys) cells with
       | inl s => Ok (sort_index s)
       | inr msg => Raise (TypeError msg)
       end
   end)%result.

(* ------------------------------------------------------------------ *)
(** ** Question 2: air conditioning *)

(** [df.loc[df[flag] == label, "price"].mean()] *)
Definition mean_where (df : DataFrame) (flag label value : string) : result float :=
  (f <- get_column df flag ;;
   v <- get_column df value ;;
   match v with
   | NumCol vals => Ok (nanmean K (select (eq_label f label) vals))
   | StrCol cells =>
       match object_mean K (select (eq_label f label) cells) with
       | inl m => Ok m
       | inr msg => Raise (TypeError msg)
       end
   end)%result.

Definition compare_air_conditioning (df : DataFrame) : result (float * float * float) :=
  (with_ac <- mean_where df "airconditioning" "yes" "price" ;;
   without_ac <- mean_where df "airconditioning" "no" "price" ;;
   let diff := (with_ac - without_ac)%float in
   Ok (with_ac, without_ac, diff))%result.

(* ------------------------------------------------------------------ *)
(** ** Correlation of area and price *)

(** [np.corrcoef(x, y)[0, 1]]: the off-diagonal entry of the covariance
    matrix, divided by the root of the first variance, then by the root of
    the second, then clipped. *)
Definition corrcoef (xs ys : list float) : float :=
  let c := cov K xs ys in
  let c00 := fst (fst c) in
  let c01 := snd (fst c) in
  let c11 := snd c in
  clip (c01 / PrimFloat.sqrt c00 / PrimFloat.sqrt c11)%float.

(** [nancorr] with [min_periods = 1]: keep the rows where both cells are
    present, NaN when nothing is left. *)
Definition nancorr (a b : list float) : float :=
  let valid := and_mask (notna a) (notna b) in
  let xs := select valid a in
  let ys := select valid b in
  if (List.length xs <? 1)%nat then nan else corrcoef xs ys.

(** [a.corr(b)]; a column of texts cannot be read as numbers. *)
Definition series_corr (a b : column) : result float :=
  match a, b with
  | NumCol xs, NumCol ys => Ok (nancorr xs ys)
  | _, _ => Raise (ValueError (object_corr_error K a b))
  end.

Definition area_price_correlation (df : DataFrame) : result float :=
  (area <- get_column df "area" ;;
   price <- get_column df "price" ;;
   series_corr area price)%result.

End Analyses.


(* ------------------------------------------------------------------ *)
(** ** The interpreter state: files, the object store, and what was shown *)

Definition ref : Type := nat.

(** A figure under construction, as the plotting calls leave it. *)
Inductive plot_call : Type :=
| Figure
| Scatter (x y : column)
| XLabel (s : string)
| YLabel (s : string)
| Title (s : string).

(** A file holds text, or an image written by [savefig]. *)
Inductive file : Type :=
| TextFile (content : string)
| ImageFile (drawn : list plot_call).

(** The parts of a formatted line. *)
Inductive piece : Type :=
| Lit (s : string)
| IntOf (z : Z)
| Currency (v : float)
| Fixed4 (v : float).

(** What one [print] call was given. *)
Inductive printed : Type :=
| Text (s : string)
| Formatted (pieces : list piece)
| NameList (names : list string)
| FrameRows (df : DataFrame)
| Counts (per_column : list (string * nat))
| SeriesRows (s : Series).

Inductive event : Type :=
| Print (p : printed)
| Plot (c : plot_call)
| SaveFig (path : string)
| Show.

Record world : Type := mkWorld {
  fs : string -> option file;
  frames : ref -> DataFrame;
  next_ref : ref;
  pending_plot : list plot_call;
  trace : list event
}.

Definition M (A : Type) : Type := world -> result A * world.

Definition ret {A : Type} (a : A) : M A := fun w => (Ok a, w).

Definition mbind {A B : Type} (m : M A) (k : A -> M B) : M B :=
  fun w => match m w with
           | (Ok a, w') => k a w'
           | (Raise e, w') => (Raise e, w')
           end.

Declare Scope monad_scope.
Delimit Scope monad_scope with monad.
Notation "x <- m ;; k" := (mbind m (fun x => k))
  (at level 61, m at next level, right associativity) : monad_scope.
Notation "m ;; k" := (mbind m (fun _ => k))
  (at level 61, right associativity) : monad_scope.

Definition lift {A : Type} (r : result A) : M A := fun w => (r, w).

(** Calling a function of the table on the object a reference points to. *)
Definition call {A : Type} (f : DataFrame -> result A) (df : ref) : M A :=
  fun w => (f (frames w df), w).

Definition emit (e : event) : M unit :=
  fun w => (Ok tt, mkWorld (fs w) (frames w) (next_ref w) (pending_plot w) (trace w ++ [e])).

Definition print (p : printed) : M unit := emit (Print p).

Definition plt (c : plot_call) : M unit :=
  fun w => (Ok tt, mkWorld (fs w) (frames w) (next_ref w)
                           (match c with Figure => [Figure] | _ => pending_plot w ++ [c] end)
                           (trace w ++ [Plot c])).

(** [plt.savefig(path)] for a path whose extension names the format, as that
    of [FIGURE_FILE] does: the figure is written at the path. *)
Definition savefig (path : string) : M unit :=
  fun w => (Ok tt, mkWorld (fun p => if String.eqb p path then Some (ImageFile (pending_plot w))
                                     else fs w p)
                           (frames w) (next_ref w) (pending_plot w)
                           (trace w ++ [SaveFig path])).

Definition new_frame (df : DataFrame) : M ref :=
  fun w => (Ok (next_ref w),
            mkWorld (fs w)
                    (fun r => if Nat.eqb r (next_ref w) then df else frames w r)
                    (S (next_ref w)) (pending_plot w) (trace w)).

Definition get_frame (df : ref) : M DataFrame := fun w => (Ok (frames w df), w).

Fixpoint for_each {A : Type} (l : list A) (body : A -> M unit) : M unit :=
  match l with
  | [] => ret tt
  | x :: rest => mbind (body x) (fun _ => for_each rest body)
  end.

(* ------------------------------------------------------------------ *)
(** ** Configuration *)

Definition DATA_FILE : string := "Housing.csv".
Definition FIGURE_FILE : string := "area_vs_price.png".

Definition REQUIRED : list string :=
  ["bedrooms"; "price"; "airconditioning"; "area"]%string.

Definition nl : string := String (ascii_of_N 10) EmptyString.

(* ------------------------------------------------------------------ *)
(** ** Loading *)

Section Loader.

(** The parser of delimited text is the library's; the loader is stated
    for any parser. *)
Variable read_csv : file -> result DataFrame.

Definition load_data (path : string) : M ref :=
  fun w =>
    match fs w path with
    | None =>
        (Raise (FileNotFoundError
                  ("Could not find '" ++ path ++
                   "'. Make sure Housing.csv is in the same folder as this script.")), w)
    | Some f =>
        match read_csv f with
        | Ok df => new_frame df w
        | Raise e => (Raise e, w)
        end
    end.

End Loader.

(* ------------------------------------------------------------------ *)
(** ** The overview *)

Definition n_rows (df : DataFrame) : nat :=
  match df with
  | [] => O
  | (_, c) :: _ => col_length c
  end.

Definition head_column (n : nat) (c : column) : column :=
  match c with
  | NumCol cells => NumCol (firstn n cells)
  | StrCol cells => StrCol (firstn n cells)
  end.

(** [df.head()] *)
Definition head (df : DataFrame) : DataFrame :=
  map (fun nc => (fst nc, head_column 5 (snd nc))) df.

(** [isna()] of a column, row by row. *)
Definition isna (c : column) : list bool :=
  match c with
  | NumCol cells => map is_nan cells
  | StrCol cells => map (fun x => match x with None => true | Some _ => false end) cells
  end.

Definition count_true (l : list bool) : nat := List.length (filter (fun b => b) l).

(** [df.isna().sum()] *)
Definition isna_sum (df : DataFrame) : list (string * nat) :=
  map (fun nc => (fst nc, count_true (isna (snd nc)))) df.

Definition print_dataset_overview (df : ref) : M unit :=
  (d <- get_frame df ;;
   print (Text "=== Dataset Overview ===") ;;
   print (Formatted [Lit "Rows: "; IntOf (Z.of_nat (n_rows d))]) ;;
   print (Formatted [Lit "Columns: "; IntOf (Z.of_nat (List.length d))]) ;;
   print (Text (nl ++ "Column names:")) ;;
   print (NameList (columns d)) ;;
   print (Text (nl ++ "First 5 rows:")) ;;
   print (FrameRows (head d)) ;;
   print (Text (nl ++ "Missing values per column:")) ;;
   print (Counts (isna_sum d)) ;;
   print (Text ""))%monad.

(* ------------------------------------------------------------------ *)
(** ** Formatting *)

Definition format_currency (value : float) : piece := Currency value.

(** The characters that [int] skips around a number. *)
Definition is_space (c : ascii) : bool :=
  let n := N_of_ascii c in
  ((N.leb 9 n && N.leb n 13) || (N.leb 28 n && N.leb n 32))%bool.

Fixpoint lstrip (l : list ascii) : list ascii :=
  match l with
  | c :: rest => if is_space c then lstrip rest else l
  | [] => []
  end.

Definition strip (l : list ascii) : list ascii := rev (lstrip (rev (lstrip l))).

Definition digit_of (c : ascii) : option Z :=
  let n := N_of_ascii c in
  if (N.leb 48 n && N.leb n 57)%bool then Some (Z.of_N n - 48)%Z else None.

(** Decimal digits, single underscores allowed between two digits. *)
Fixpoint digits_value (l : list ascii) (acc : Z) (after_digit : bool) : option Z :=
  match l with
  | [] => if after_digit then Some acc else None
  | c :: rest =>
      match digit_of c with
      | Some d => digits_value rest (acc * 10 + d)%Z true
      | None => if (Ascii.eqb c "_" && after_digit)%bool
                then digits_value rest acc false
                else None
      end
  end.

Definition int_of_ascii (s : string) : option Z :=
  match strip (list_ascii_of_string s) with
  | "-"%char :: ds => option_map Z.opp (digits_value ds 0%Z false)
  | "+"%char :: ds => digits_value ds 0%Z false
  | ds => digits_value ds 0%Z false
  end.

(** The integer part of a double: its value cut off toward zero; none for
    NaN and the infinities. *)
Definition float_trunc (x : float) : option Z :=
  match Prim2SF x with
  | S754_zero _ => Some 0%Z
  | S754_finite s m e => Some (cond_Zopp s (Z.shiftl (Zpos m) e))
  | S754_infinity _ => None
  | S754_nan => None
  end.

Section Formatting.

Variable K : library.

(** [int(s)] of a text. *)
Definition int_of_string (s : string) : option Z :=
  if is_ascii s then int_of_ascii s else int_of_unicode K s.

(** [int(x)] of an index value: a number is truncated toward zero, a text is
    read as a decimal integer. *)
Definition py_int (x : scalar) : result Z :=
  match x with
  | SNum f =>
      match float_trunc f with
      | Some z => Ok z
      | None => if is_nan f
                then Raise (ValueError "cannot convert float NaN to integer")
                else Raise (OverflowError "cannot convert float infinity to integer")
      end
  | SStr s => match int_of_string s with
              | Some z => Ok z
              | None => Raise (ValueError ("invalid literal for int() with base 10: "
                                           ++ py_repr K s))
              end
  end.

End Formatting.

(* ------------------------------------------------------------------ *)
(** ** Question 3: the plot *)

(** A path counts as given when it is neither [None] nor empty. *)
Definition truthy (save_path : option string) : option string :=
  match save_path with
  | Some EmptyString => None
  | other => other
  end.

Definition plot_area_vs_price (df : ref) (save_path : option string) : M unit :=
  (plt Figure ;;
   x <- call (fun d => get_column d "area") df ;;
   y <- call (fun d => get_column d "price") df ;;
   plt (Scatter x y) ;;
   plt (XLabel "Area (sq ft)") ;;
   plt (YLabel "Price") ;;
   plt (Title "House Area vs Price") ;;
   match truthy save_path with
   | Some path => (savefig path ;; print (Text ("Saved plot to: " ++ path)))
   | None => ret tt
   end ;;
   emit Show)%monad.

(* ------------------------------------------------------------------ *)
(** ** Main program flow *)

Section Main.

Variable K : library.
Variable read_csv : file -> result DataFrame.

Definition main : M unit :=
  (df <- load_data read_csv DATA_FILE ;;
   call (fun d => validate_columns K d REQUIRED) df ;;
   print_dataset_overview df ;;
   print (Text "=== Question 1: Average price by number of bedrooms ===") ;;
   by_bedrooms <- call (avg_price_by_bedrooms K) df ;;
   print (SeriesRows by_bedrooms) ;;
   print (Text (nl ++ "(Formatted)")) ;;
   for_each by_bedrooms
     (fun item =>
        b <- lift (py_int K (fst item)) ;;
        print (Formatted [IntOf b; Lit " bedroom(s): "; format_currency (snd item)])) ;;
   print (Text "") ;;
   print (Text "=== Question 2: Air conditioning vs price ===") ;;
   r <- call (compare_air_conditioning K) df ;;
   let with_ac := fst (fst r) in
   let without_ac := snd (fst r) in
   let diff := snd r in
   print (Formatted [Lit "Average price WITH air conditioning:  "; format_currency with_ac]) ;;
   print (Formatted [Lit "Average price WITHOUT air conditioning: ";
                     format_currency without_ac]) ;;
   print (Formatted [Lit "Difference (with - without):          "; format_currency diff]) ;;
   print (Text "") ;;
   print (Text "=== Extra: Correlation (Area vs Price) ===") ;;
   corr <- call (area_price_correlation K) df ;;
   print (Formatted [Lit "Pearson correlation between area and price: "; Fixed4 corr]) ;;
   print (Text "") ;;
   print (Text "=== Question 3: Plot (Area vs Price) ===") ;;
   plot_area_vs_price df (Some FIGURE_FILE))%monad.

End Main.

(* ------------------------------------------------------------------ *)
(** ** Vocabulary of the statements *)

(** [l1] is a beginning of [l2]. *)
Definition prefix {A : Type} (l1 l2 : list A) : Prop := exists rest, l2 = l1 ++ rest.

(** [l1] is [l2] with some elements left out, the others in their order. *)
Inductive subseq {A : Type} : list A -> list A -> Prop :=
| subseq_nil : subseq [] []
| subseq_skip : forall x l1 l2, subseq l1 l2 -> subseq l1 (x :: l2)
| subseq_keep : forall x l1 l2, subseq l1 l2 -> subseq (x :: l1) (x :: l2).

Definition occurs_in (needle hay : string) : Prop :=
  exists pre post, hay = (pre ++ needle ++ post)%string.

(** A name that [repr] shows as it is, between single quotes: printable
    ASCII with neither a single quote nor a backslash. *)
Definition plain_char (c : ascii) : bool :=
  let n := N_of_ascii c in
  (N.leb 32 n && N.leb n 126 && negb (Ascii.eqb c "'") && negb (Ascii.eqb c "\"))%bool.

Definition plain_name (s : string) : bool :=
  forallb plain_char (list_ascii_of_string s).

Definition quoted (s : string) : string := ("'" ++ s ++ "'")%string.

(** The text of the validator's error for the list of names [missing]. *)
Definition missing_message (missing : list string) : string :=
  ("Missing required columns: [" ++ String.concat ", " (map quoted missing) ++ "]")%string.

(** Two index values are the same key: the same text, or equal numbers. *)
Definition same_key (a b : scalar) : Prop := scalar_compare a b = Eq.

Definition key_is (k : scalar) (cell : option scalar) : bool :=
  match cell with
  | Some k' => scalar_eqb k' k
  | None => false
  end.

(** A cell of a table, of a numeric or of a text column. *)
Definition cell : Type := (float + option string)%type.

Definition cells (c : column) : list cell :=
  match c with
  | NumCol l => map inl l
  | StrCol l => map inr l
  end.

Definition cell_missing (x : cell) : bool :=
  match x with
  | inl v => is_nan v
  | inr None => true
  | inr (Some _) => false
  end.





Definition flag_is (label : string) (cell : option string) : bool :=
  match cell with
  | Some s => String.eqb s label
  | None => false
  end.

(** The value cells of the rows whose flag is the text [label]. *)
Definition flag_values (label : string) (flags : list (option string))
  (vals : list float) : list float :=
  map snd (filter (fun row => flag_is label (fst row)) (combine flags vals)).

(** The cells of a column read as texts: a number is no text. *)
Definition text_cells (c : column) : list (option string) :=
  match c with
  | StrCol cells => cells
  | NumCol cells => map (fun _ => None) cells
  end.






(** The rational number a double stands for; none for NaN and the
    infinities. *)
Definition float_value (x : float) : option Q :=
  match Prim2SF x with
  | S754_zero _ => Some 0%Q
  | S754_finite s m e =>
      Some (match e with
            | Zneg k => Qmake (cond_Zopp s (Zpos m)) (Pos.pow 2 k)
            | _ => inject_Z (cond_Zopp s (Zpos m * 2 ^ e))
            end)
  | S754_infinity _ => None
  | S754_nan => None
  end.





(** The rows seen so far, as the table of groups records them. *)
Definition groups_ok (rows : list (option scalar * float))
           (g : list (scalar * list float)) : Prop :=
  StronglySorted scalar_lt (map fst g) /\
  (forall k, In k (map fst g) -> In (Some k) (map fst rows)) /\
  (forall c, In (Some c) (map fst rows) -> exists k, In k (map fst g) /\ same_key c k) /\
  (forall k vs, In (k, vs) g ->
                vs = map snd (filter (fun row => key_is k (fst row)) rows)).

(** The state after the events [es] were shown. *)
Definition shown (w : world) (es : list event) : world :=
  mkWorld (fs w) (frames w) (next_ref w) (pending_plot w) (trace w ++ es).

(** The figure that the plot step draws. *)
Definition drawn_figure (x y : column) : list plot_call :=
  [Figure; Scatter x y; XLabel "Area (sq ft)"; YLabel "Price"; Title "House Area vs Price"].

(** What the steps of a complete run show, step by step. *)
Definition overview_report (d : DataFrame) : list event :=
  map Print
      [Text "=== Dataset Overview ===";
       Formatted [Lit "Rows: "; IntOf (Z.of_nat (n_rows d))];
       Formatted [Lit "Columns: "; IntOf (Z.of_nat (List.length d))];
       Text (nl ++ "Column names:");
       NameList (columns d);
       Text (nl ++ "First 5 rows:");
       FrameRows (head d);
       Text (nl ++ "Missing values per column:");
       Counts (isna_sum d);
       Text ""].

Definition bedrooms_line (b : Z) (item : scalar * float) : event :=
  Print (Formatted [IntOf b; Lit " bedroom(s): "; Currency (snd item)]).

Fixpoint bedrooms_lines (bs : list Z) (s : Series) : list event :=
  match bs, s with
  | b :: bs', item :: s' => bedrooms_line b item :: bedrooms_lines bs' s'
  | _, _ => []
  end.

Definition bedrooms_report (s : Series) (bs : list Z) : list event :=
  [Print (Text "=== Question 1: Average price by number of bedrooms ===");
   Print (SeriesRows s);
   Print (Text (nl ++ "(Formatted)"))]
  ++ bedrooms_lines bs s
  ++ [Print (Text "")].

Definition air_conditioning_report (c : float * float * float) : list event :=
  map Print
      [Text "=== Question 2: Air conditioning vs price ===";
       Formatted [Lit "Average price WITH air conditioning:  "; Currency (fst (fst c))];
       Formatted [Lit "Average price WITHOUT air conditioning: "; Currency (snd (fst c))];
       Formatted [Lit "Difference (with - without):          "; Currency (snd c)];
       Text ""].

Definition correlation_report (r : float) : list event :=
  map Print
      [Text "=== Extra: Correlation (Area vs Price) ===";
       Formatted [Lit "Pearson correlation between area and price: "; Fixed4 r];
       Text ""].

Definition plot_report (x y : column) (path : string) : list event :=
  [Print (Text "=== Question 3: Plot (Area vs Price) ===");
   Plot Figure;
   Plot (Scatter x y);
   Plot (XLabel "Area (sq ft)");
   Plot (YLabel "Price");
   Plot (Title "House Area vs Price");
   SaveFig path;
   Print (Text ("Saved plot to: " ++ path));
   Show].

(* ------------------------------------------------------------------ *)
(** ** The order of doubles, on their specification *)

(** [float_compare] on the specification of the doubles. *)
Definition sf_compare (a b : spec_float) : comparison :=
  match SFcompare a b with
  | Some c => c
  | None => match a, b with
            | S754_nan, S754_nan => Eq
            | S754_nan, _ => Gt
            | _, _ => Lt
            end
  end.

(** A triple of integers that is ordered as the doubles are. *)
Definition sf_key (a : spec_float) : Z * Z * Z :=
  match a with
  | S754_nan => (3, 0, 0)
  | S754_infinity true => (-2, 0, 0)
  | S754_infinity false => (2, 0, 0)
  | S754_zero _ => (0, 0, 0)
  | S754_finite false m e => (1, e, Zpos m)
  | S754_finite true m e => (-1, - e, Zneg m)
  end%Z.

Definition lex3 (p q : Z * Z * Z) : comparison :=
  match (fst (fst p) ?= fst (fst q))%Z with
  | Eq => match (snd (fst p) ?= snd (fst q))%Z with
          | Eq => (snd p ?= snd q)%Z
          | c => c
          end
  | c => c
  end.

(* ------------------------------------------------------------------ *)
(** ** Sample data *)

(** Routines that sum from left to right, as the library's do on a handful of
    rows; they serve to evaluate the analyses on small tables. *)
Definition fsum (l : list float) : float := fold_left PrimFloat.add l 0%float.

Definition float_of_nat (n : nat) : float :=
  PrimFloat.of_uint63 (Uint63.of_Z (Z.of_nat n)).

Definition dropna (cells : list float) : list float :=
  filter (fun x => negb (is_nan x)) cells.

Definition sequential_mean (cells : list float) : float :=
  let xs := dropna cells in
  (fsum xs / float_of_nat (List.length xs))%float.

(** The covariance matrix with divisor [n - 1]: deviations from the means,
    sums of their products, times [1 / (n - 1)]. *)
Definition sequential_cov (xs ys : list float) : float * float * float :=
  match xs with
  | [] => (nan, nan, nan)
  | [_] => (nan, nan, nan)
  | _ :: _ :: _ =>
      let n := float_of_nat (List.length xs) in
      let mx := (fsum xs / n)%float in
      let my := (fsum ys / n)%float in
      let dx := map (fun x => (x - mx)%float) xs in
      let dy := map (fun y => (y - my)%float) ys in
      let r := (1 / (n - 1))%float in
      let dot := fun a b => fsum (map (fun p => (fst p * snd p)%float) (combine a b)) in
      ((dot dx dx * r)%float, (dot dx dy * r)%float, (dot dy dy * r)%float)
  end.

Definition sequential : library :=
  {| group_mean := sequential_mean;
     nanmean := sequential_mean;
     cov := sequential_cov;
     object_group_mean :=
       fun _ _ => inr "agg function failed [how->mean,dtype->object]"%string;
     object_mean :=
       fun cells => match cells with
                    | [] => inl nan
                    | _ :: _ => inr "Could not convert string to numeric"%string
                    end;
     object_corr_error := fun _ _ => "could not convert string to float"%string;
     int_of_unicode := fun _ => None;
     repr_of_unicode := fun s => ("'" ++ s ++ "'")%string |}.

Definition sample_frame : DataFrame :=
  [("price", NumCol [100; 200; 300; nan]%float);
   ("area", NumCol [10; 30; 20; 5]%float);
   ("bedrooms", NumCol [2; 2; 3; 4]%float);
   ("airconditioning", StrCol [Some "yes"; Some "no"; Some "yes"; None])]%string.

(** Six rows, one more than the preview shows. *)
Definition six_rows : DataFrame :=
  [("area", NumCol [11; 12; 13; 14; 15; 16]%float);
   ("airconditioning", StrCol [None; Some "yes"; None; Some "no"; Some "yes"; None])]%string.

Definition sample_world : world :=
  mkWorld (fun p => if String.eqb p DATA_FILE then Some (TextFile "price,area") else None)
          (fun _ => []) O [] [].

Definition sample_parser (f : file) : result DataFrame :=
  match f with
  | TextFile _ => Ok sample_frame
  | ImageFile _ => Raise (ParserError "Error tokenizing data")
  end.

(** A world in which the data file does not exist. *)
Definition empty_world : world := mkWorld (fun _ => None) (fun _ => []) O [] [].

(* ================================================================== *)
(** * Properties *)

(* ------------------------------------------------------------------ *)
(** ** The validator *)

Lemma has_column_In (df : DataFrame) (col : string) :
  has_column df col = true <-> In col (columns df).
Proof.
  unfold has_column. rewrite existsb_exists. split.
  - intros [x [Hin Heq]]. apply String.eqb_eq in Heq. now subst.
  - intros Hin. exists col. split; [assumption | apply String.eqb_refl].
Qed.

Lemma missing_columns_In (df : DataFrame) (required : list string) (c : string) :
  In c (missing_columns df required) <-> In c required /\ ~ In c (columns df).
Proof.
  unfold missing_columns. rewrite filter_In, negb_true_iff.
  rewrite <- has_column_In.
  destruct (has_column df c); intuition congruence.
Qed.

Lemma occurs_in_refl (s : string) : occurs_in s s.
Proof.
  exists EmptyString, EmptyString. simpl. induction s; simpl; congruence.
Qed.

Lemma append_assoc (a b c : string) : ((a ++ b) ++ c = a ++ (b ++ c))%string.
Proof. induction a; simpl; congruence. Qed.

Lemma occurs_in_app_l (n a b : string) : occurs_in n a -> occurs_in n (a ++ b)%string.
Proof.
  intros [pre [post ->]]. exists pre, (post ++ b)%string.
  now rewrite !append_assoc.
Qed.

Lemma occurs_in_app_r (n a b : string) : occurs_in n b -> occurs_in n (a ++ b)%string.
Proof.
  intros [pre [post ->]]. exists (a ++ pre)%string, post.
  now rewrite !append_assoc.
Qed.

Lemma occurs_in_concat (sep : string) (l : list string) (s : string) :
  In s l -> occurs_in s (String.concat sep l).
Proof.
  induction l as [|x l IH]; simpl; [tauto|].
  intros [->|Hin].
  - destruct l; [apply occurs_in_refl|].
    apply occurs_in_app_l, occurs_in_refl.
  - destruct l as [|y l]; [destruct Hin|].
    apply occurs_in_app_r, occurs_in_app_r, IH, Hin.
Qed.

Lemma occurs_in_list_repr (K : library) (l : list string) (c : string) :
  In c l -> occurs_in (py_repr K c) (py_list_repr K l).
Proof.
  intros Hin. unfold py_list_repr.
  apply occurs_in_app_r, occurs_in_app_l, occurs_in_concat.
  now apply in_map.
Qed.

Lemma escape_char_plain (c : ascii) :
  plain_char c = true -> escape_char "'" c = String c EmptyString.
Proof.
  destruct c as [[] [] [] [] [] [] [] []]; intros H; try discriminate H; reflexivity.
Qed.

Lemma escape_string_plain (s : string) :
  plain_name s = true -> escape_string "'" s = s.
Proof.
  unfold plain_name. induction s as [|c s IH]; simpl; [reflexivity|].
  intros H. apply andb_true_iff in H. destruct H as [Hc Hs].
  now rewrite (escape_char_plain _ Hc), (IH Hs).
Qed.

Lemma plain_name_no_quote (s : string) :
  plain_name s = true -> contains_char "'" s = false.
Proof.
  unfold plain_name, contains_char.
  induction s as [|c s IH]; cbn [list_ascii_of_string forallb existsb]; [reflexivity|].
  intros H. apply andb_true_iff in H. destruct H as [Hc Hs].
  rewrite (IH Hs), orb_false_r.
  unfold plain_char in Hc. rewrite !andb_true_iff, !negb_true_iff in Hc.
  destruct Hc as [[_ Hq] _]. now rewrite Ascii.eqb_sym.
Qed.

Lemma plain_name_ascii (s : string) : plain_name s = true -> is_ascii s = true.
Proof.
  unfold plain_name, is_ascii.
  induction s as [|c s IH]; cbn [list_ascii_of_string forallb]; [reflexivity|].
  intros H. apply andb_true_iff in H. destruct H as [Hc Hs].
  rewrite (IH Hs), andb_true_r.
  unfold plain_char in Hc. rewrite !andb_true_iff in Hc.
  destruct Hc as [[[_ Hle] _] _]. apply N.leb_le in Hle. apply N.ltb_lt. lia.
Qed.

(** A plain name is rendered as itself between single quotes. *)
Lemma py_repr_plain (K : library) (s : string) :
  plain_name s = true -> py_repr K s = quoted s.
Proof.
  intros H. unfold py_repr, ascii_repr, repr_quote.
  rewrite (plain_name_ascii _ H), (plain_name_no_quote _ H). simpl.
  now rewrite (escape_string_plain _ H).
Qed.

Lemma py_list_repr_plain (K : library) (l : list string) :
  Forall (fun s => plain_name s = true) l ->
  ("Missing required columns: " ++ py_list_repr K l)%string = missing_message l.
Proof.
  intros H. unfold py_list_repr, missing_message.
  assert (Hmap : map (py_repr K) l = map quoted l).
  { induction H as [|s l Hs _ IH]; simpl; [reflexivity|].
    now rewrite (py_repr_plain K _ Hs), IH. }
  now rewrite Hmap.
Qed.

(** C5: the validator succeeds exactly when every required column is a
    column of the table; otherwise it raises the key error whose message
    lists all the required columns that are absent, not just the first: the
    rendering of every absent name occurs in the message, for a plain name
    that is the name itself between single quotes, and when all absent names
    are plain the message is the fixed text followed by the bracketed list
    of the quoted names, separated by a comma and a space. *)
Theorem validate_columns_all_or_report
        (K : library) (df : DataFrame) (required : list string) :
  (validate_columns K df required = Ok tt <->
   forall c, In c required -> In c (columns df)) /\
  (validate_columns K df required = Ok tt \/
   exists missing msg,
     validate_columns K df required = Raise (KeyError msg) /\
     (forall c, In c missing <-> In c required /\ ~ In c (columns df)) /\
     (forall c, In c missing -> occurs_in (py_repr K c) msg) /\
     (forall c, In c missing -> plain_name c = true -> occurs_in (quoted c) msg) /\
     (Forall (fun c => plain_name c = true) missing -> msg = missing_message missing)).
Proof.
  pose proof (missing_columns_In df required) as HIn.
  unfold validate_columns.
  destruct (missing_columns df required) as [|m ms] eqn:Hm.
  - split.
    + split; [intros _ c Hc | reflexivity].
      destruct (has_column df c) eqn:Hh; [now apply has_column_In|].
      exfalso. apply (proj2 (HIn c)). split; [assumption|].
      rewrite <- has_column_In. congruence.
    + now left.
  - split.
    + split; [discriminate|].
      intros Hall. exfalso.
      destruct (proj1 (HIn m) (or_introl eq_refl)) as [Hr Hn].
      apply Hn, Hall, Hr.
    + right. exists (m :: ms). eexists. split; [reflexivity|]. split; [exact HIn|].
      split; [|split].
      * intros c Hc. now apply occurs_in_app_r, occurs_in_list_repr.
      * intros c Hc Hp. rewrite <- (py_repr_plain K _ Hp).
        now apply occurs_in_app_r, occurs_in_list_repr.
      * intros Hall. now apply py_list_repr_plain.
Qed.

Lemma validate_columns_all_or_report_witness :
  exists msg,
    validate_columns sequential sample_frame ["rooms"; "price"; "garage"]%string
    = Raise (KeyError msg) /\
    occurs_in "'rooms'" msg /\ occurs_in "'garage'" msg.
Proof.
  destruct (validate_columns_all_or_report sequential sample_frame
              ["rooms"; "price"; "garage"]%string)
    as [_ [Hok | [missing [msg [Hraise [Hin [_ [Hplain _]]]]]]]].
  - discriminate Hok.
  - exists msg. split; [exact Hraise|]. split.
    + apply (Hplain "rooms"%string); [|reflexivity].
      apply Hin. simpl. split; [tauto|]. intuition discriminate.
    + apply (Hplain "garage"%string); [|reflexivity].
      apply Hin. simpl. split; [tauto|]. intuition discriminate.
Defined.

Lemma missing_columns_subseq (df : DataFrame) (required : list string) :
  subseq (missing_columns df required) required.
Proof.
  unfold missing_columns.
  induction required as [|r rs IH]; simpl; [constructor|].
  destruct (negb (has_column df r)); now constructor.
Qed.

Lemma missing_columns_count (df : DataFrame) (required : list string) (c : string) :
  count_occ string_dec (missing_columns df required) c =
  if has_column df c then O else count_occ string_dec required c.
Proof.
  unfold missing_columns.
  induction required as [|r rs IH]; simpl.
  - now destruct (has_column df c).
  - destruct (string_dec r c) as [->|Hne].
    + destruct (has_column df c) eqn:Hc; simpl.
      * exact IH.
      * destruct (string_dec c c); [now rewrite IH | congruence].
    + destruct (negb (has_column df r)); simpl; [|exact IH].
      destruct (string_dec r c); [congruence | exact IH].
Qed.

Lemma subseq_Forall (A : Type) (P : A -> Prop) (l1 l2 : list A) :
  subseq l1 l2 -> Forall P l2 -> Forall P l1.
Proof.
  induction 1 as [|x l1 l2 _ IH|x l1 l2 _ IH]; intros H.
  - constructor.
  - inversion H; subst. now apply IH.
  - inversion H; subst. constructor; [assumption | now apply IH].
Qed.

Lemma concat_occurrence (sep : string) (l1 l2 : list string) (x : string) :
  exists p q, String.concat sep (l1 ++ x :: l2) = (p ++ x ++ q)%string /\
              (l2 = [] -> q = EmptyString) /\
              (forall y l3, l2 = y :: l3 -> q = (sep ++ String.concat sep l2)%string).
Proof.
  induction l1 as [|a l1 IH]; simpl.
  - exists EmptyString. destruct l2 as [|y l3].
    + exists EmptyString. simpl. repeat split; try discriminate.
      clear. induction x; simpl; congruence.
    + exists (sep ++ String.concat sep (y :: l3))%string. repeat split; discriminate.
  - destruct IH as [p [q [Heq [Hnil Hcons]]]].
    destruct (l1 ++ x :: l2) as [|b rest] eqn:Hl.
    + destruct l1; discriminate.
    + exists (a ++ sep ++ p)%string, q. rewrite Heq, !append_assoc. repeat split; assumption.
Qed.

(** In the rendering of a list, an earlier element stands before a later
    one. *)
Lemma concat_order (sep : string) (l1 l2 l3 : list string) (x y : string) :
  exists p q r,
    String.concat sep (l1 ++ x :: l2 ++ y :: l3) = (p ++ x ++ q ++ y ++ r)%string.
Proof.
  destruct (concat_occurrence sep l1 (l2 ++ y :: l3) x) as [p [q [Heq [_ Hcons]]]].
  destruct (concat_occurrence sep l2 l3 y) as [p' [q' [Heq' _]]].
  destruct (l2 ++ y :: l3) as [|z rest] eqn:Hl; [destruct l2; discriminate|].
  rewrite (Hcons _ _ eq_refl), Heq' in Heq.
  exists p, (sep ++ p')%string, q'. rewrite Heq, !append_assoc. reflexivity.
Qed.

(** C9: when the validator fails, its message lists the required names that
    are absent in the order of the required list: the list is the required
    list with the present names left out, an absent name as many times as it
    is required; of two absent plain names the one required first stands
    first in the message, and when all absent names are plain the message is
    the fixed text followed by the bracketed list of the quoted names in
    that order. *)
Theorem validate_columns_report_order
        (K : library) (df : DataFrame) (required : list string) (e : exn) :
  validate_columns K df required = Raise e ->
  exists missing msg,
    e = KeyError msg /\
    subseq missing required /\
    (forall c, count_occ string_dec missing c =
               if has_column df c then O else count_occ string_dec required c) /\
    (forall l1 c1 l2 c2 l3,
        missing = l1 ++ c1 :: l2 ++ c2 :: l3 ->
        plain_name c1 = true -> plain_name c2 = true ->
        exists p q r, msg = (p ++ quoted c1 ++ q ++ quoted c2 ++ r)%string) /\
    (Forall (fun c => plain_name c = true) missing -> msg = missing_message missing).
Proof.
  unfold validate_columns. intros H.
  pose proof (missing_columns_subseq df required) as Hs.
  pose proof (missing_columns_count df required) as Hc.
  destruct (missing_columns df required) as [|m ms]; [discriminate|].
  exists (m :: ms), ("Missing required columns: " ++ py_list_repr K (m :: ms))%string.
  split; [now inversion H|].
  split; [assumption|]. split; [assumption|]. clear H. split.
  - intros l1 c1 l2 c2 l3 Hsplit Hp1 Hp2. rewrite Hsplit.
    unfold py_list_repr. rewrite !map_app. cbn [map]. rewrite map_app. cbn [map].
    rewrite (py_repr_plain K _ Hp1), (py_repr_plain K _ Hp2).
    destruct (concat_order ", " (map (py_repr K) l1) (map (py_repr K) l2) (map (py_repr K) l3)
                           (quoted c1) (quoted c2)) as [p [q [r Heq]]].
    exists (("Missing required columns: " ++ "[") ++ p)%string, q, (r ++ "]")%string.
    rewrite Heq, !append_assoc. reflexivity.
  - intros Hall. now apply py_list_repr_plain.
Qed.

Lemma validate_columns_report_order_witness :
  exists missing,
    subseq missing ["zeta"; "price"; "alpha"; "alpha"]%string /\
    "Missing required columns: ['zeta', 'alpha', 'alpha']"%string = missing_message missing.
Proof.
  destruct (@validate_columns_report_order sequential sample_frame
              ["zeta"; "price"; "alpha"; "alpha"]%string
              (KeyError "Missing required columns: ['zeta', 'alpha', 'alpha']") eq_refl)
    as [missing [msg [Hmsg [Hsub [_ [_ Hplain]]]]]].
  exists missing. split; [exact Hsub|].
  inversion Hmsg as [Heq]. rewrite Heq. apply Hplain.
  apply (subseq_Forall Hsub). repeat constructor.
Defined.

(* ------------------------------------------------------------------ *)
(** ** The order of index values *)

Lemma is_nan_spec (x : float) :
  is_nan x = match Prim2SF x with S754_nan => true | _ => false end.
Proof.
  unfold is_nan. rewrite eqb_spec. unfold SFeqb.
  destruct (Prim2SF x) as [s|s| |s m e]; simpl; try reflexivity.
  - destruct s; reflexivity.
  - destruct s; rewrite Z.compare_refl, Pos.compare_cont_refl; reflexivity.
Qed.


Lemma float_compare_spec (x y : float) :
  float_compare x y = sf_compare (Prim2SF x) (Prim2SF y).
Proof.
  unfold float_compare, sf_compare. rewrite compare_spec, !is_nan_spec.
  destruct (Prim2SF x) as [s|s| |s m e], (Prim2SF y) as [s'|s'| |s' m' e'];
    cbn [SFcompare flatten_cmp_opt]; try reflexivity;
    try (destruct s; reflexivity); try (destruct s'; reflexivity);
    try (destruct s, s'; reflexivity).
  destruct s, s'; try reflexivity;
    destruct (e ?= e')%Z; try reflexivity;
    destruct (Pos.compare_cont Eq m m'); reflexivity.
Qed.

Lemma sf_compare_key (a b : spec_float) : sf_compare a b = lex3 (sf_key a) (sf_key b).
Proof.
  destruct a as [s|s| |s m e], b as [s'|s'| |s' m' e']; unfold sf_compare, lex3; simpl;
    try reflexivity; try (destruct s; reflexivity); try (destruct s'; reflexivity);
    try (destruct s, s'; reflexivity).
  destruct s, s'; simpl; try reflexivity.
  change (Pos.compare_cont Eq m m') with (Pos.compare m m').
  rewrite Z.compare_opp, (Z.compare_antisym e e').
  destruct (e ?= e')%Z; reflexivity.
Qed.

Lemma lex3_refl (p : Z * Z * Z) : lex3 p p = Eq.
Proof. unfold lex3. now rewrite !Z.compare_refl. Qed.

Lemma lex3_antisym (p q : Z * Z * Z) : lex3 q p = CompOpp (lex3 p q).
Proof.
  unfold lex3.
  rewrite (Z.compare_antisym (fst (fst p))), (Z.compare_antisym (snd (fst p))),
    (Z.compare_antisym (snd p)).
  destruct (fst (fst p) ?= fst (fst q))%Z; simpl; try reflexivity.
  destruct (snd (fst p) ?= snd (fst q))%Z; reflexivity.
Qed.

Lemma lex3_eq (p q : Z * Z * Z) : lex3 p q = Eq -> p = q.
Proof.
  destruct p as [[a b] c], q as [[a' b'] c']. unfold lex3. simpl.
  destruct (Z.compare_spec a a'); try discriminate.
  destruct (Z.compare_spec b b'); try discriminate.
  destruct (Z.compare_spec c c'); try discriminate. intros _. congruence.
Qed.

Lemma lex3_lt (p q : Z * Z * Z) :
  lex3 p q = Lt <->
  (fst (fst p) < fst (fst q) \/
   (fst (fst p) = fst (fst q) /\
    (snd (fst p) < snd (fst q) \/ (snd (fst p) = snd (fst q) /\ snd p < snd q))))%Z.
Proof.
  unfold lex3.
  destruct (Z.compare_spec (fst (fst p)) (fst (fst q)));
    [destruct (Z.compare_spec (snd (fst p)) (snd (fst q)));
     [destruct (Z.compare_spec (snd p) (snd q))|..]|..];
    split; intros H'; try discriminate; try reflexivity; lia.
Qed.

Lemma lex3_lt_trans (p q r : Z * Z * Z) : lex3 p q = Lt -> lex3 q r = Lt -> lex3 p r = Lt.
Proof. rewrite !lex3_lt. lia. Qed.

Lemma float_compare_refl (x : float) : float_compare x x = Eq.
Proof. rewrite float_compare_spec, sf_compare_key. apply lex3_refl. Qed.

Lemma float_compare_antisym (x y : float) :
  float_compare y x = CompOpp (float_compare x y).
Proof. rewrite !float_compare_spec, !sf_compare_key. apply lex3_antisym. Qed.

Lemma float_compare_lt_trans (x y z : float) :
  float_compare x y = Lt -> float_compare y z = Lt -> float_compare x z = Lt.
Proof. rewrite !float_compare_spec, !sf_compare_key. apply lex3_lt_trans. Qed.

Lemma float_compare_eq_l (x y z : float) :
  float_compare x y = Eq -> float_compare x z = float_compare y z.
Proof.
  rewrite !float_compare_spec, !sf_compare_key. intros H.
  apply lex3_eq in H. now rewrite H.
Qed.

Lemma string_compare_refl (s : string) : String.compare s s = Eq.
Proof.
  pose proof (String.compare_antisym s s) as H.
  destruct (String.compare s s); simpl in H; congruence.
Qed.

Lemma ascii_compare_lt_trans (a b c : ascii) :
  Ascii.compare a b = Lt -> Ascii.compare b c = Lt -> Ascii.compare a c = Lt.
Proof.
  unfold Ascii.compare. rewrite !N.compare_lt_iff. apply N.lt_trans.
Qed.

Lemma string_compare_lt_trans (a b c : string) :
  String.compare a b = Lt -> String.compare b c = Lt -> String.compare a c = Lt.
Proof.
  revert b c. induction a as [|x a IH]; intros [|y b] [|z c]; simpl;
    try discriminate; try reflexivity.
  destruct (Ascii.compare x y) eqn:Hxy; try discriminate;
    destruct (Ascii.compare y z) eqn:Hyz; try discriminate; intros Hab Hbc.
  - apply Ascii.compare_eq_iff in Hxy, Hyz. subst.
    assert (Hzz : Ascii.compare z z = Eq).
    { unfold Ascii.compare. apply N.compare_refl. }
    rewrite Hzz. eapply IH; eassumption.
  - apply Ascii.compare_eq_iff in Hxy. subst. now rewrite Hyz.
  - apply Ascii.compare_eq_iff in Hyz. subst. now rewrite Hxy.
  - now rewrite (ascii_compare_lt_trans _ _ _ Hxy Hyz).
Qed.

Lemma scalar_compare_refl (a : scalar) : scalar_compare a a = Eq.
Proof.
  destruct a; simpl; [apply float_compare_refl | apply string_compare_refl].
Qed.

Lemma scalar_compare_antisym (a b : scalar) :
  scalar_compare b a = CompOpp (scalar_compare a b).
Proof.
  destruct a, b; simpl; try reflexivity.
  - apply float_compare_antisym.
  - apply String.compare_antisym.
Qed.

Lemma scalar_lt_trans (a b c : scalar) : scalar_lt a b -> scalar_lt b c -> scalar_lt a c.
Proof.
  unfold scalar_lt. destruct a, b, c; simpl; try discriminate; try reflexivity.
  - apply float_compare_lt_trans.
  - apply string_compare_lt_trans.
Qed.

(** Equal keys compare alike with every other key. *)
Lemma scalar_compare_eq_l (a b c : scalar) :
  same_key a b -> scalar_compare a c = scalar_compare b c.
Proof.
  unfold same_key. destruct a, b; simpl; try discriminate; intros H.
  - destruct c; [now apply float_compare_eq_l | reflexivity].
  - apply String.compare_eq_iff in H. now subst.
Qed.

Lemma same_key_refl (a : scalar) : same_key a a.
Proof. apply scalar_compare_refl. Qed.

Lemma same_key_sym (a b : scalar) : same_key a b -> same_key b a.
Proof. unfold same_key. intros H. now rewrite scalar_compare_antisym, H. Qed.

Lemma same_key_trans (a b c : scalar) : same_key a b -> same_key b c -> same_key a c.
Proof. intros Hab Hbc. unfold same_key. now rewrite (scalar_compare_eq_l c Hab). Qed.

Lemma scalar_gt_lt (a b : scalar) : scalar_compare a b = Gt -> scalar_lt b a.
Proof.
  unfold scalar_lt. intros H. rewrite scalar_compare_antisym, H. reflexivity.
Qed.

Lemma scalar_lt_not_same (a b : scalar) : scalar_lt a b -> ~ same_key a b.
Proof. unfold scalar_lt, same_key. congruence. Qed.

Lemma scalar_eqb_same (a b : scalar) : scalar_eqb a b = true <-> same_key a b.
Proof.
  unfold scalar_eqb, same_key. destruct (scalar_compare a b); split; congruence.
Qed.

(** In a strictly ascending list, equal keys are the same entry. *)
Lemma strictly_sorted_same_key (l : list scalar) (a b : scalar) :
  StronglySorted scalar_lt l -> In a l -> In b l -> same_key a b -> a = b.
Proof.
  induction 1 as [|x l Hs IH Hall]; simpl; [tauto|].
  rewrite Forall_forall in Hall.
  intros [->|Ha] [->|Hb] Hsame; auto.
  - exfalso. exact (scalar_lt_not_same (Hall _ Hb) Hsame).
  - exfalso. exact (scalar_lt_not_same (Hall _ Ha) (same_key_sym Hsame)).
Qed.

(* ------------------------------------------------------------------ *)
(** ** Grouping *)

Lemma add_obs_keys (k : scalar) (v : float) (g : list (scalar * list float)) (k' : scalar) :
  In k' (map fst (add_obs k v g)) -> k' = k \/ In k' (map fst g).
Proof.
  induction g as [|[k0 a0] g IH]; simpl.
  - intuition.
  - destruct (scalar_compare k k0) eqn:Hc; simpl; intuition.
Qed.

Lemma add_obs_keeps (k : scalar) (v : float) (g : list (scalar * list float)) (k' : scalar) :
  In k' (map fst g) -> In k' (map fst (add_obs k v g)).
Proof.
  induction g as [|[k0 a0] g IH]; simpl; [tauto|].
  destruct (scalar_compare k k0) eqn:Hc; simpl; intuition.
Qed.

Lemma add_obs_covers (k : scalar) (v : float) (g : list (scalar * list float)) :
  exists k', In k' (map fst (add_obs k v g)) /\ same_key k k'.
Proof.
  induction g as [|[k0 a0] g IH]; simpl.
  - exists k. split; [now left | apply same_key_refl].
  - destruct (scalar_compare k k0) eqn:Hc; simpl.
    + exists k0. split; [now left | exact Hc].
    + exists k. split; [now left | apply same_key_refl].
    + destruct IH as [k' [Hin Hs]]. exists k'. split; [now right | exact Hs].
Qed.

Lemma add_obs_sorted (k : scalar) (v : float) (g : list (scalar * list float)) :
  StronglySorted scalar_lt (map fst g) ->
  StronglySorted scalar_lt (map fst (add_obs k v g)).
Proof.
  induction g as [|[k0 a0] g IH]; simpl; intros Hs.
  - repeat constructor.
  - inversion Hs as [|? ? Hs' Hall]; subst.
    destruct (scalar_compare k k0) eqn:Hc; simpl.
    + now constructor.
    + constructor; [assumption|]. constructor; [exact Hc|].
      eapply Forall_impl; [|exact Hall]. intros x Hx.
      eapply scalar_lt_trans; eassumption.
    + constructor; [now apply IH|].
      rewrite Forall_forall in *. intros x Hx.
      apply add_obs_keys in Hx. destruct Hx as [->|Hx].
      * now apply scalar_gt_lt.
      * now apply Hall.
Qed.

Lemma in_keys (A : Type) (k : scalar) (a : A) (g : list (scalar * A)) :
  In (k, a) g -> In k (map fst g).
Proof. intros H. change k with (fst (k, a)). now apply in_map. Qed.

(** Where an entry of the table of groups comes from, after a row with key
    [k] and value [v] has entered. *)
Lemma add_obs_lookup (k : scalar) (v : float) (g : list (scalar * list float))
      (k' : scalar) (vs' : list float) :
  StronglySorted scalar_lt (map fst g) ->
  In (k', vs') (add_obs k v g) ->
  (same_key k k' /\
   ((exists vs, In (k', vs) g /\ vs' = vs ++ [v]) \/
    ((forall k0, In k0 (map fst g) -> ~ same_key k k0) /\ vs' = [v]))) \/
  (~ same_key k k' /\ In (k', vs') g).
Proof.
  induction g as [|[k0 a0] g IH]; simpl; intros Hs Hin.
  - destruct Hin as [Heq|[]]. inversion Heq; subst. left.
    split; [apply same_key_refl|]. right. split; [tauto | reflexivity].
  - inversion Hs as [|? ? Hs' Hall]; subst. rewrite Forall_forall in Hall.
    destruct (scalar_compare k k0) eqn:Hc.
    + destruct Hin as [Heq|Hin].
      * inversion Heq; subst. left. split; [exact Hc|]. left.
        exists a0. split; [now left | reflexivity].
      * right. split; [|now right].
        unfold same_key. rewrite (scalar_compare_eq_l k' Hc).
        apply scalar_lt_not_same, Hall. eapply in_keys; eassumption.
    + assert (Hlt : forall x, In x (k0 :: map fst g) -> scalar_lt k x).
      { intros x [<-|Hx]; [exact Hc|]. eapply scalar_lt_trans; [exact Hc | now apply Hall]. }
      destruct Hin as [Heq|Hin].
      * inversion Heq; subst. left. split; [apply same_key_refl|]. right.
        split; [|reflexivity]. intros x Hx. apply scalar_lt_not_same, Hlt, Hx.
      * right. split; [|exact Hin].
        apply scalar_lt_not_same, Hlt.
        destruct Hin as [Heq|Hin]; [inversion Heq; now left|].
        right. eapply in_keys; eassumption.
    + destruct Hin as [Heq|Hin].
      * inversion Heq; subst. right. split; [|now left].
        unfold same_key. congruence.
      * destruct (IH Hs' Hin) as [[Hsame [[vs [Hg Hv]]|[Hnone Hv]]]|[Hne Hg]].
        -- left. split; [assumption|]. left. exists vs. split; [now right | assumption].
        -- left. split; [assumption|]. right. split; [|assumption].
           intros x [<-|Hx]; [unfold same_key; congruence | now apply Hnone].
        -- right. split; [assumption | now right].
Qed.

Lemma filter_none (rows : list (option scalar * float)) (k : scalar) :
  (forall c, In (Some c) (map fst rows) -> ~ same_key c k) ->
  filter (fun row => key_is k (fst row)) rows = [].
Proof.
  induction rows as [|[key v] rows IH]; simpl; [reflexivity|].
  intros H. destruct key as [c|]; simpl.
  - destruct (scalar_eqb c k) eqn:He.
    + apply scalar_eqb_same in He. exfalso. apply (H c); [now left | assumption].
    + apply IH. intros c' Hc'. apply H. now right.
  - apply IH. intros c' Hc'. apply H. now right.
Qed.

Lemma group_rows_ok (rows : list (option scalar * float)) :
  groups_ok rows (fold_left add_row rows []).
Proof.
  induction rows as [|[key v] rows IH] using rev_ind.
  - simpl. repeat split; try constructor; simpl; try tauto.
  - rewrite fold_left_app. simpl.
    destruct IH as [Hs [Hk [Hcov Ha]]].
    set (g := fold_left add_row rows []) in *.
    unfold add_row. simpl. destruct key as [k|].
    + split; [now apply add_obs_sorted|]. split; [|split].
      * intros k' Hin. rewrite map_app, in_app_iff. simpl.
        apply add_obs_keys in Hin. destruct Hin as [->|Hin]; [tauto|].
        left. now apply Hk.
      * intros c Hin. rewrite map_app, in_app_iff in Hin. simpl in Hin.
        destruct Hin as [Hin|[Heq|[]]].
        -- destruct (Hcov c Hin) as [k' [Hk' Hsame]].
           exists k'. split; [now apply add_obs_keeps | assumption].
        -- inversion Heq; subst. apply add_obs_covers.
      * intros k' vs' Hin. rewrite filter_app, map_app. simpl.
        destruct (add_obs_lookup _ _ _ _ _ Hs Hin)
          as [[Hsame [[vs [Hg Hv]]|[Hnone Hv]]]|[Hne Hg]].
        -- rewrite (proj2 (scalar_eqb_same k k') Hsame). simpl. subst vs'.
           f_equal. now apply Ha.
        -- rewrite (proj2 (scalar_eqb_same k k') Hsame). simpl. subst vs'.
           rewrite filter_none; [reflexivity|].
           intros c Hc Hck. destruct (Hcov c Hc) as [k0 [Hk0 Hsame0]].
           apply (Hnone k0 Hk0).
           eapply same_key_trans; [|exact Hsame0].
           eapply same_key_trans; [exact Hsame | now apply same_key_sym].
        -- destruct (scalar_eqb k k') eqn:He.
           ++ apply scalar_eqb_same in He. contradiction.
           ++ simpl. rewrite app_nil_r. now apply Ha.
    + split; [assumption|]. split; [|split].
      * intros k' Hin. rewrite map_app, in_app_iff. left. now apply Hk.
      * intros c Hin. rewrite map_app, in_app_iff in Hin. simpl in Hin.
        destruct Hin as [Hin|[Heq|[]]]; [now apply Hcov | discriminate].
      * intros k' vs' Hin. rewrite filter_app, map_app. simpl.
        rewrite app_nil_r. now apply Ha.
Qed.

Lemma sort_index_sorted (s : Series) :
  StronglySorted scalar_lt (map fst s) -> sort_index s = s.
Proof.
  induction s as [|e s IH]; simpl; intros Hs; [reflexivity|].
  inversion Hs as [|? ? Hs' Hall]; subst.
  rewrite (IH Hs'). destruct s as [|h t]; simpl; [reflexivity|].
  inversion Hall as [|? ? Hlt _]; subst.
  unfold scalar_leb. unfold scalar_lt in Hlt. now rewrite Hlt.
Qed.



Lemma find_column_In (df : DataFrame) (name : string) (c : column) :
  find_column df name = Some c -> In c (map snd df).
Proof.
  induction df as [|[n c0] df IH]; simpl; [discriminate|].
  destruct (String.eqb name n).
  - intros H. inversion H. now left.
  - intros H. right. now apply IH.
Qed.

Lemma find_column_has (df : DataFrame) (name : string) :
  has_column df name = true <-> exists c, find_column df name = Some c.
Proof.
  unfold has_column, columns.
  induction df as [|[n c0] df IH]; simpl.
  - split; [discriminate | intros [c H]; discriminate].
  - destruct (String.eqb name n); simpl.
    + split; [intros _; now exists c0 | reflexivity].
    + exact IH.
Qed.

Lemma groupby_mean_keys (K : library) (keys : list (option scalar)) (vals : list float) :
  map fst (groupby_mean K keys vals) = map fst (group_rows keys vals).
Proof. unfold groupby_mean. rewrite map_map. reflexivity. Qed.

Lemma sample_frame_well_formed : well_formed sample_frame.
Proof.
  split.
  - repeat constructor; simpl; intuition discriminate.
  - simpl. intros c1 c2 H1 H2.
    repeat (destruct H1 as [H1|H1]; [subst c1|]); try contradiction;
      repeat (destruct H2 as [H2|H2]; [subst c2|]); try contradiction; reflexivity.
Qed.



(* ------------------------------------------------------------------ *)
(** ** Keys and cells *)











(* ------------------------------------------------------------------ *)
(** ** Doubles are binary fractions *)




(* ------------------------------------------------------------------ *)
(** ** Question 1 *)



(** The scenario of the specification: bedrooms 2, 2, 3 with prices 100, 200,
    300 give the averages 150 and 300. *)
Example avg_price_by_bedrooms_scenario :
  avg_price_by_bedrooms sequential
    [("bedrooms"%string, NumCol [2; 2; 3]%float);
     ("price"%string, NumCol [100; 200; 300]%float)]
  = Ok [(SNum 2, 150%float); (SNum 3, 300%float)].
Proof. reflexivity. Qed.


Example avg_price_by_bedrooms_absorption :
  avg_price_by_bedrooms sequential
    [("bedrooms"%string, NumCol [2; 2; 2]%float);
     ("price"%string, NumCol [1e16; 1; -1e16]%float)]
  = Ok [(SNum 2, 0%float)].
Proof. reflexivity. Qed.

(* ------------------------------------------------------------------ *)
(** ** Question 2 *)

Lemma select_filter (A B : Type) (p : A -> bool) (flags : list A) (vals : list B) :
  select (map p flags) vals = map snd (filter (fun row => p (fst row)) (combine flags vals)).
Proof.
  revert vals. induction flags as [|f flags IH]; intros [|v vals]; simpl; try reflexivity.
  destruct (p f); simpl; now rewrite IH.
Qed.

Lemma eq_label_flags (c : column) (label : string) :
  eq_label c label = map (flag_is label) (text_cells c).
Proof.
  destruct c as [cells|cells]; simpl.
  - now rewrite map_map.
  - reflexivity.
Qed.

Lemma mean_where_flag (K : library) (df : DataFrame) (flag label value : string)
      (flags : column) (vals : list float) :
  find_column df flag = Some flags ->
  find_column df value = Some (NumCol vals) ->
  mean_where K df flag label value =
  Ok (nanmean K (flag_values label (text_cells flags) vals)).
Proof.
  intros Hf Hv. unfold mean_where, get_column. rewrite Hf, Hv. simpl.
  rewrite eq_label_flags, select_filter. reflexivity.
Qed.





(** The scenario of the specification: flags yes, no, yes with prices 100,
    50, 300 give the means 200 and 50 and the difference 150. *)
Example compare_air_conditioning_scenario :
  compare_air_conditioning sequential
    [("airconditioning"%string, StrCol [Some "yes"; Some "no"; Some "yes"]%string);
     ("price"%string, NumCol [100; 50; 300]%float)]
  = Ok (200%float, 50%float, 150%float).
Proof. reflexivity. Qed.


(** Summed from left to right, the prices 0.1, 0.2, 0.3 have the mean
    0.20000000000000004 and, in the opposite order, 0.19999999999999998. *)
Example compare_air_conditioning_order_of_rows :
  compare_air_conditioning sequential
    [("airconditioning"%string, StrCol [Some "yes"; Some "yes"; Some "yes"]%string);
     ("price"%string,
      NumCol [0.1; 0.2; 0.3]%float)]
  <>
  compare_air_conditioning sequential
    [("airconditioning"%string, StrCol [Some "yes"; Some "yes"; Some "yes"]%string);
     ("price"%string,
      NumCol [0.3; 0.2; 0.1]%float)].
Proof.
  intros H. vm_compute in H. discriminate H.
Qed.

(* ------------------------------------------------------------------ *)
(** ** The correlation coefficient *)











(* ------------------------------------------------------------------ *)
(** ** Range and symmetry *)



(* ------------------------------------------------------------------ *)
(** ** The loader *)

(** C6: for any parser, loading a path that does not exist raises the
    file-not-found error and changes nothing; loading a path whose file the
    parser accepts returns, without error, a reference to the parsed table,
    and touches neither the files, nor what was shown, nor any other table. *)
Theorem load_data_missing_or_table
        (read_csv : file -> result DataFrame) (w : world) (path : string) :
  (fs w path = None ->
   exists msg, load_data read_csv path w = (Raise (FileNotFoundError msg), w)) /\
  (forall f df, fs w path = Some f -> read_csv f = Ok df ->
     exists r w', load_data read_csv path w = (Ok r, w') /\
                  frames w' r = df /\
                  (forall r', r' <> r -> frames w' r' = frames w r') /\
                  fs w' = fs w /\ trace w' = trace w).
Proof.
  unfold load_data. split.
  - intros ->. eexists. reflexivity.
  - intros f df -> ->. unfold new_frame. do 2 eexists.
    split; [reflexivity|]. simpl. rewrite Nat.eqb_refl.
    repeat split. intros r' Hne.
    apply Nat.eqb_neq in Hne. now rewrite Hne.
Qed.

Lemma load_data_missing_or_table_witness :
  (exists msg, load_data sample_parser "Missing.csv" sample_world =
               (Raise (FileNotFoundError msg), sample_world)) /\
  (exists r w', load_data sample_parser DATA_FILE sample_world = (Ok r, w') /\
                frames w' r = sample_frame).
Proof.
  destruct (load_data_missing_or_table sample_parser sample_world "Missing.csv")
    as [Hmissing _].
  destruct (load_data_missing_or_table sample_parser sample_world DATA_FILE)
    as [_ Hfound].
  split; [apply Hmissing; reflexivity|].
  destruct (Hfound (TextFile "price,area") sample_frame eq_refl eq_refl)
    as [r [w' [H1 [H2 _]]]].
  exists r, w'. split; assumption.
Defined.

(* ------------------------------------------------------------------ *)
(** ** The run *)

Lemma shown_shown (w : world) (a b : list event) :
  shown (shown w a) b = shown w (a ++ b).
Proof. unfold shown. simpl. now rewrite app_assoc. Qed.

Lemma mbind_print (B : Type) (p : printed) (k : unit -> M B) (w : world) :
  mbind (print p) k w = k tt (shown w [Print p]).
Proof. reflexivity. Qed.

Lemma mbind_call (A B : Type) (f : DataFrame -> result A) (df : ref) (k : A -> M B)
      (w : world) :
  mbind (call f df) k w =
  match f (frames w df) with
  | Ok a => k a w
  | Raise e => (Raise e, w)
  end.
Proof. unfold mbind, call. destruct (f (frames w df)); reflexivity. Qed.

Lemma mbind_ok (A B : Type) (m : M A) (k : A -> M B) (w w' : world) (b : B) :
  mbind m k w = (Ok b, w') ->
  exists a w1, m w = (Ok a, w1) /\ k a w1 = (Ok b, w').
Proof.
  unfold mbind. destruct (m w) as [[a|e] w1]; [|discriminate].
  intros H. now exists a, w1.
Qed.

Lemma overview_run (df : ref) (w : world) :
  print_dataset_overview df w = (Ok tt, shown w (overview_report (frames w df))).
Proof.
  unfold print_dataset_overview, get_frame.
  unfold mbind at 1. rewrite !mbind_print. unfold print, emit. simpl.
  unfold shown. simpl. rewrite <- !app_assoc. reflexivity.
Qed.

Lemma mbind_overview (B : Type) (df : ref) (k : unit -> M B) (w : world) :
  mbind (print_dataset_overview df) k w =
  k tt (shown w (overview_report (frames w df))).
Proof. unfold mbind. now rewrite overview_run. Qed.

(** The loop over the averages: every key is read as an integer, and one
    line per key is shown, in the order of the series. *)
Lemma bedrooms_loop_run (K : library) (s : Series) (w w' : world) :
  for_each s
    (fun item =>
       mbind (lift (py_int K (fst item)))
             (fun b => print (Formatted [IntOf b; Lit " bedroom(s): ";
                                         format_currency (snd item)]))) w = (Ok tt, w') ->
  exists bs, Forall2 (fun item b => py_int K (fst item) = Ok b) s bs /\
             w' = shown w (bedrooms_lines bs s).
Proof.
  revert w. induction s as [|item s IH]; intros w H.
  - exists []. split; [constructor|]. simpl in H. unfold ret in H. inversion H. subst.
    unfold shown. simpl. rewrite app_nil_r. now destruct w'.
  - cbn [for_each] in H. apply mbind_ok in H. destruct H as [[] [w1 [Hbody Hrest]]].
    unfold mbind, lift in Hbody. destruct (py_int K (fst item)) as [b|e] eqn:Hb; [|discriminate].
    inversion Hbody; subst w1. clear Hbody.
    destruct (IH _ Hrest) as [bs [Hall ->]].
    exists (b :: bs). split; [now constructor|].
    unfold shown. simpl. rewrite <- app_assoc. reflexivity.
Qed.

Lemma plot_run (df : ref) (path : string) (w w' : world) :
  path <> EmptyString ->
  plot_area_vs_price df (Some path) w = (Ok tt, w') ->
  exists x y,
    get_column (frames w df) "area" = Ok x /\
    get_column (frames w df) "price" = Ok y /\
    trace w' = trace w ++ [Plot Figure; Plot (Scatter x y); Plot (XLabel "Area (sq ft)");
                           Plot (YLabel "Price"); Plot (Title "House Area vs Price");
                           SaveFig path; Print (Text ("Saved plot to: " ++ path)); Show] /\
    fs w' path = Some (ImageFile (drawn_figure x y)) /\
    frames w' = frames w.
Proof.
  intros Hpath. unfold plot_area_vs_price.
  assert (Ht : truthy (Some path) = Some path) by (destruct path; [congruence | reflexivity]).
  rewrite Ht. unfold mbind at 1. cbn [plt].
  rewrite mbind_call. cbn [frames].
  destruct (get_column (frames w df) "area") as [x|e] eqn:Hx; [|discriminate].
  rewrite mbind_call. cbn [frames].
  destruct (get_column (frames w df) "price") as [y|e] eqn:Hy; [|discriminate].
  intros H. exists x, y. split; [reflexivity|]. split; [reflexivity|].
  unfold mbind, plt, savefig, print, emit in H. simpl in H. inversion H. simpl.
  rewrite String.eqb_refl, <- !app_assoc. simpl. repeat split.
Qed.

Lemma frames_shown (w : world) (es : list event) : frames (shown w es) = frames w.
Proof. reflexivity. Qed.

Lemma load_data_world (read_csv : file -> result DataFrame) (path : string)
      (w w1 : world) (r : result ref) :
  load_data read_csv path w = (r, w1) ->
  trace w1 = trace w /\ fs w1 = fs w /\ pending_plot w1 = pending_plot w /\
  (forall e, r = Raise e -> w1 = w).
Proof.
  unfold load_data, new_frame.
  destruct (fs w path) as [f|].
  - destruct (read_csv f) as [df|e]; intros H; inversion H; subst; simpl;
      repeat split; try discriminate; reflexivity.
  - intros H; inversion H; subst. repeat split; reflexivity.
Qed.

Lemma shown_nil (w : world) : shown w [] = w.
Proof. unfold shown. rewrite app_nil_r. now destruct w. Qed.

Lemma mbind_inv (A B : Type) (m : M A) (k : A -> M B) (w w' : world) (r : result B) :
  mbind m k w = (r, w') ->
  (exists e, m w = (Raise e, w') /\ r = Raise e) \/
  (exists a w1, m w = (Ok a, w1) /\ k a w1 = (r, w')).
Proof.
  unfold mbind. destruct (m w) as [[a|e] w1]; intros H.
  - right. now exists a, w1.
  - left. exists e. inversion H. split; reflexivity.
Qed.

(** However the loop ends, it has shown the lines of a beginning of the
    series and nothing else. *)
Lemma bedrooms_loop_any (K : library) (s : Series) (w w' : world) (r : result unit) :
  for_each s
    (fun item =>
       mbind (lift (py_int K (fst item)))
             (fun b => print (Formatted [IntOf b; Lit " bedroom(s): ";
                                         format_currency (snd item)]))) w = (r, w') ->
  exists bs, w' = shown w (bedrooms_lines bs s).
Proof.
  revert w. induction s as [|item s IH]; intros w H.
  - exists []. simpl in H. unfold ret in H. inversion H. now rewrite shown_nil.
  - cbn [for_each] in H. apply mbind_inv in H.
    destruct H as [[e [Hbody _]]|[[] [w1 [Hbody Hrest]]]].
    + exists []. unfold mbind, lift in Hbody.
      destruct (py_int K (fst item)); inversion Hbody. now rewrite shown_nil.
    + unfold mbind, lift in Hbody.
      destruct (py_int K (fst item)) as [b|e]; [|discriminate].
      inversion Hbody; subst w1. clear Hbody.
      destruct (IH _ Hrest) as [bs ->].
      exists (b :: bs). unfold shown. simpl. rewrite <- app_assoc. reflexivity.
Qed.

(** However the plot step ends, what it has shown is a beginning of the
    events of a finished plot. *)
Lemma plot_any (df : ref) (path : string) (w w' : world) (r : result unit) :
  path <> EmptyString ->
  plot_area_vs_price df (Some path) w = (r, w') ->
  exists x y,
    prefix (trace w')
           (trace w ++ [Plot Figure; Plot (Scatter x y); Plot (XLabel "Area (sq ft)");
                        Plot (YLabel "Price"); Plot (Title "House Area vs Price");
                        SaveFig path; Print (Text ("Saved plot to: " ++ path)); Show]).
Proof.
  intros Hpath. unfold plot_area_vs_price.
  assert (Ht : truthy (Some path) = Some path) by (destruct path; [congruence | reflexivity]).
  rewrite Ht. unfold mbind at 1. cbn [plt].
  rewrite mbind_call. cbn [frames].
  destruct (get_column (frames w df) "area") as [x|e].
  - rewrite mbind_call. cbn [frames].
    destruct (get_column (frames w df) "price") as [y|e'].
    + intros H. exists x, y.
      unfold mbind, plt, savefig, print, emit in H. simpl in H. inversion H. simpl.
      exists []. rewrite <- !app_assoc, app_nil_r. reflexivity.
    + intros H. inversion H. exists x, x. simpl. eexists.
      rewrite <- app_assoc. reflexivity.
  - intros H. inversion H. exists (NumCol []), (NumCol []). simpl. eexists.
    rewrite <- app_assoc. reflexivity.
Qed.

(** C8: the run loads, then validates, and when either fails it ends with
    that error having shown nothing, written no file and drawn nothing.  A run
    that completes has shown, after what was there before, the overview, then
    the grouped averages, then the comparison, then the correlation, then the
    plot, in this order, each computed from the table that was loaded and
    validated, and has written the figure.  A run that fails later on has
    shown a beginning of such a sequence. *)
Theorem main_runs_in_order_or_aborts
        (K : library) (read_csv : file -> result DataFrame) (w : world) :
  (forall e w1, load_data read_csv DATA_FILE w = (Raise e, w1) ->
                main K read_csv w = (Raise e, w)) /\
  (forall df w1 e,
      load_data read_csv DATA_FILE w = (Ok df, w1) ->
      validate_columns K (frames w1 df) REQUIRED = Raise e ->
      main K read_csv w = (Raise e, w1) /\
      trace w1 = trace w /\ fs w1 = fs w /\ pending_plot w1 = pending_plot w) /\
  (forall w', main K read_csv w = (Ok tt, w') ->
     exists df w1 s bs c r x y,
       load_data read_csv DATA_FILE w = (Ok df, w1) /\
       validate_columns K (frames w1 df) REQUIRED = Ok tt /\
       avg_price_by_bedrooms K (frames w1 df) = Ok s /\
       Forall2 (fun item b => py_int K (fst item) = Ok b) s bs /\
       compare_air_conditioning K (frames w1 df) = Ok c /\
       area_price_correlation K (frames w1 df) = Ok r /\
       get_column (frames w1 df) "area" = Ok x /\
       get_column (frames w1 df) "price" = Ok y /\
       trace w' = trace w ++ overview_report (frames w1 df)
                          ++ bedrooms_report s bs
                          ++ air_conditioning_report c
                          ++ correlation_report r
                          ++ plot_report x y FIGURE_FILE /\
       fs w' FIGURE_FILE = Some (ImageFile (drawn_figure x y))) /\
  (forall res w' df w1,
      main K read_csv w = (res, w') ->
      load_data read_csv DATA_FILE w = (Ok df, w1) ->
      validate_columns K (frames w1 df) REQUIRED = Ok tt ->
      exists s bs c r x y,
        prefix (trace w')
               (trace w ++ overview_report (frames w1 df)
                        ++ bedrooms_report s bs
                        ++ air_conditioning_report c
                        ++ correlation_report r
                        ++ plot_report x y FIGURE_FILE)).
Proof.
  split; [|split; [|split]].
  - intros e w1 Hload.
    destruct (load_data_world _ _ _ Hload) as [_ [_ [_ Hw]]].
    rewrite (Hw e eq_refl) in Hload.
    unfold main, mbind. now rewrite Hload.
  - intros df w1 e Hload Hval.
    destruct (load_data_world _ _ _ Hload) as [Ht [Hf [Hp _]]].
    split; [|auto].
    unfold main. unfold mbind at 1. rewrite Hload, mbind_call, Hval. reflexivity.
  - intros w' H. unfold main in H.
    apply mbind_ok in H. destruct H as [df [w1 [Hload H]]].
    destruct (load_data_world _ _ _ Hload) as [Ht _].
    rewrite mbind_call in H.
    destruct (validate_columns K (frames w1 df) REQUIRED) as [[]|e] eqn:Hval; [|discriminate].
    rewrite mbind_overview, mbind_print, mbind_call, !frames_shown in H.
    destruct (avg_price_by_bedrooms K (frames w1 df)) as [s|e] eqn:Havg; [|discriminate].
    rewrite !mbind_print in H.
    apply mbind_ok in H. destruct H as [[] [w2 [Hloop H]]].
    apply bedrooms_loop_run in Hloop. destruct Hloop as [bs [Hbs ->]].
    rewrite !mbind_print, mbind_call, !frames_shown in H.
    destruct (compare_air_conditioning K (frames w1 df)) as [c|e] eqn:Hcmp; [|discriminate].
    cbv zeta in H.
    rewrite !mbind_print, mbind_call, !frames_shown in H.
    destruct (area_price_correlation K (frames w1 df)) as [r|e] eqn:Hcorr; [|discriminate].
    rewrite !mbind_print, !shown_shown in H.
    apply plot_run in H; [|discriminate].
    destruct H as [x [y [Hx [Hy [Htr [Hfs _]]]]]].
    rewrite frames_shown in Hx, Hy.
    exists df, w1, s, bs, c, r, x, y.
    repeat (split; [assumption|]). split; [|assumption].
    rewrite Htr. unfold shown. cbn [trace]. rewrite Ht.
    unfold bedrooms_report, format_currency.
    rewrite <- !app_assoc. reflexivity.
  - intros res w' df w1 H Hload Hval. unfold main in H.
    destruct (load_data_world _ _ _ Hload) as [Ht _].
    unfold mbind at 1 in H. rewrite Hload, mbind_call, Hval in H.
    rewrite mbind_overview, mbind_print, mbind_call, !frames_shown in H.
    destruct (avg_price_by_bedrooms K (frames w1 df)) as [s|e].
    2:{ inversion H. exists [], [], (nan, nan, nan), nan, (NumCol []), (NumCol []).
        unfold shown. cbn [trace]. rewrite Ht. eexists.
        unfold bedrooms_report. rewrite <- !app_assoc. reflexivity. }
    rewrite !mbind_print in H.
    apply mbind_inv in H. destruct H as [[e [Hloop _]]|[[] [w2 [Hloop H]]]].
    { apply bedrooms_loop_any in Hloop. destruct Hloop as [bs ->].
      exists s, bs, (nan, nan, nan), nan, (NumCol []), (NumCol []).
      rewrite !shown_shown. unfold shown. cbn [trace]. rewrite Ht. eexists.
      unfold bedrooms_report. rewrite <- !app_assoc. reflexivity. }
    apply bedrooms_loop_any in Hloop. destruct Hloop as [bs ->].
    rewrite !mbind_print, mbind_call, !frames_shown in H.
    destruct (compare_air_conditioning K (frames w1 df)) as [c|e].
    2:{ inversion H. exists s, bs, (nan, nan, nan), nan, (NumCol []), (NumCol []).
        rewrite !shown_shown. unfold shown. cbn [trace]. rewrite Ht. eexists.
        unfold bedrooms_report. rewrite <- !app_assoc. reflexivity. }
    cbv zeta in H.
    rewrite !mbind_print, mbind_call, !frames_shown in H.
    destruct (area_price_correlation K (frames w1 df)) as [r|e].
    2:{ inversion H. exists s, bs, c, nan, (NumCol []), (NumCol []).
        rewrite !shown_shown. unfold shown. cbn [trace]. rewrite Ht. eexists.
        unfold bedrooms_report, format_currency. rewrite <- !app_assoc. reflexivity. }
    rewrite !mbind_print, !shown_shown in H.
    apply plot_any in H; [|discriminate].
    destruct H as [x [y [rest Hrest]]].
    exists s, bs, c, r, x, y. exists rest.
    unfold shown in Hrest. cbn [trace] in Hrest. rewrite Ht in Hrest.
    rewrite <- !app_assoc in Hrest. rewrite <- Hrest.
    unfold bedrooms_report, format_currency. rewrite <- !app_assoc. reflexivity.
Qed.

(** The sample file is loaded, validated and reported to the end. *)
Lemma main_sample_run : exists w', main sequential sample_parser sample_world = (Ok tt, w').
Proof.
  eexists. vm_compute. reflexivity.
Qed.

Lemma main_runs_in_order_or_aborts_witness :
  (exists msg, main sequential sample_parser empty_world = (Raise (FileNotFoundError msg), empty_world)) /\
  (exists w' s bs c r x y,
      main sequential sample_parser sample_world = (Ok tt, w') /\
      trace w' = overview_report sample_frame
                 ++ bedrooms_report s bs
                 ++ air_conditioning_report c
                 ++ correlation_report r
                 ++ plot_report x y FIGURE_FILE).
Proof.
  split.
  - destruct (main_runs_in_order_or_aborts sequential sample_parser empty_world) as [Habort _].
    eexists. apply (Habort _ empty_world). reflexivity.
  - destruct (main_runs_in_order_or_aborts sequential sample_parser sample_world)
      as [_ [_ [Hrun _]]].
    destruct main_sample_run as [w' Hmain].
    destruct (Hrun w' Hmain) as [df [w1 [s [bs [c [r [x [y [Hload [_ [_ [_ [_ [_ [_ [_ [Htr _]]]]]]]]]]]]]]]]].
    exists w', s, bs, c, r, x, y. split; [assumption|].
    assert (Hd : frames w1 df = sample_frame).
    { unfold load_data, new_frame in Hload. simpl in Hload. inversion Hload. reflexivity. }
    rewrite Hd in Htr. exact Htr.
Defined.


(* ================================================================== *)
(** * Further properties of the script *)

(* ------------------------------------------------------------------ *)
(** ** Loading fails without a trace *)

(** X1: a load that fails leaves the state exactly as it was, and it fails
    either because the path does not exist, with the file-not-found error, or
    because the parser rejected the file, with the parser's own error. *)
Theorem load_data_failure_changes_nothing
        (read_csv : file -> result DataFrame) (w w1 : world) (path : string) (e : exn) :
  load_data read_csv path w = (Raise e, w1) ->
  w1 = w /\
  ((fs w path = None /\ exists msg, e = FileNotFoundError msg) \/
   (exists f, fs w path = Some f /\ read_csv f = Raise e)).
Proof.
  unfold load_data, new_frame.
  destruct (fs w path) as [f|] eqn:Hf.
  - destruct (read_csv f) as [df|e'] eqn:Hr; intros H; inversion H; subst.
    split; [reflexivity|]. right. now exists f.
  - intros H; inversion H; subst. split; [reflexivity|]. left.
    split; [reflexivity|]. eexists. reflexivity.
Qed.

Lemma load_data_failure_changes_nothing_witness :
  load_data sample_parser DATA_FILE
            (mkWorld (fun _ => Some (ImageFile [])) (fun _ => []) O [] []) =
  (Raise (ParserError "Error tokenizing data"),
   mkWorld (fun _ => Some (ImageFile [])) (fun _ => []) O [] []) /\
  exists f, Some (ImageFile []) = Some f /\
            sample_parser f = Raise (ParserError "Error tokenizing data").
Proof.
  split; [reflexivity|].
  destruct (@load_data_failure_changes_nothing sample_parser
              (mkWorld (fun _ => Some (ImageFile [])) (fun _ => []) O [] [])
              (mkWorld (fun _ => Some (ImageFile [])) (fun _ => []) O [] [])
              DATA_FILE (ParserError "Error tokenizing data") eq_refl)
    as [_ [[Hnone _]|Hparse]].
  - discriminate Hnone.
  - exact Hparse.
Defined.

(* ------------------------------------------------------------------ *)
(** ** What validation buys *)

Lemma validate_ok_has (K : library) (df : DataFrame) (required : list string) (c : string) :
  validate_columns K df required = Ok tt -> In c required -> has_column df c = true.
Proof.
  unfold validate_columns. intros Hv Hin.
  destruct (missing_columns df required) as [|m ms] eqn:Hm; [|discriminate].
  destruct (has_column df c) eqn:Hc; [reflexivity|].
  assert (Hmiss : In c (missing_columns df required)).
  { apply missing_columns_In. split; [assumption|].
    rewrite <- has_column_In. congruence. }
  rewrite Hm in Hmiss. destruct Hmiss.
Qed.

(** X2: after a successful validation every required column can be read:
    looking it up in the table returns a column and no key error. *)
Theorem validated_columns_are_found
        (K : library) (df : DataFrame) (required : list string) :
  validate_columns K df required = Ok tt ->
  forall c, In c required -> exists col, get_column df c = Ok col.
Proof.
  intros Hv c Hin. unfold get_column.
  destruct (proj1 (find_column_has df c) (@validate_ok_has K df required c Hv Hin)) as [col Hcol].
  exists col. now rewrite Hcol.
Qed.

Lemma validated_columns_are_found_witness :
  validate_columns sequential sample_frame REQUIRED = Ok tt /\
  exists col, get_column sample_frame "price" = Ok col.
Proof.
  split; [reflexivity|].
  apply (@validated_columns_are_found sequential sample_frame REQUIRED eq_refl "price"%string).
  simpl. tauto.
Defined.

Lemma validated_find (K : library) (df : DataFrame) (c : string) :
  validate_columns K df REQUIRED = Ok tt -> In c REQUIRED ->
  exists col, find_column df c = Some col.
Proof.
  intros Hv Hin. apply find_column_has. eapply validate_ok_has; eassumption.
Qed.

(** X3: on a table that passed the validation of the four required columns,
    none of the three analyses raises a key error. *)
Theorem validated_analyses_raise_no_key_error (K : library) (df : DataFrame) (msg : string) :
  validate_columns K df REQUIRED = Ok tt ->
  avg_price_by_bedrooms K df <> Raise (KeyError msg) /\
  compare_air_conditioning K df <> Raise (KeyError msg) /\
  area_price_correlation K df <> Raise (KeyError msg).
Proof.
  intros Hv.
  destruct (@validated_find K df "bedrooms" Hv) as [kb Hb]; [simpl; tauto|].
  destruct (@validated_find K df "price" Hv) as [kp Hp]; [simpl; tauto|].
  destruct (@validated_find K df "airconditioning" Hv) as [ka Ha]; [simpl; tauto|].
  destruct (@validated_find K df "area" Hv) as [kr Hr]; [simpl; tauto|].
  unfold avg_price_by_bedrooms, compare_air_conditioning, mean_where,
    area_price_correlation, get_column.
  rewrite Hb, Hp, Ha, Hr. simpl.
  repeat split.
  - destruct kp as [vals|cells]; [discriminate|].
    destruct (object_group_mean K (cells_of kb) cells); discriminate.
  - destruct kp as [vals|cells]; simpl; [discriminate|].
    destruct (object_mean K (select (eq_label ka "yes") cells)); simpl; [|discriminate].
    destruct (object_mean K (select (eq_label ka "no") cells)); discriminate.
  - destruct kr, kp; simpl; discriminate.
Qed.

Lemma validated_analyses_raise_no_key_error_witness :
  avg_price_by_bedrooms sequential sample_frame <> Raise (KeyError "price") /\
  compare_air_conditioning sequential sample_frame <> Raise (KeyError "price") /\
  area_price_correlation sequential sample_frame <> Raise (KeyError "price").
Proof.
  apply (@validated_analyses_raise_no_key_error sequential sample_frame "price"). reflexivity.
Defined.

(* ------------------------------------------------------------------ *)
(** ** Reading a key as an integer *)

Lemma float_trunc_value (x : float) :
  match float_value x with
  | Some q =>
      exists z, float_trunc x = Some z /\
                ((0 <= q)%Q -> (inject_Z z <= q)%Q /\ (q < inject_Z (z + 1))%Q) /\
                ((q <= 0)%Q -> (inject_Z (z - 1) < q)%Q /\ (q <= inject_Z z)%Q)
  | None => float_trunc x = None
  end.
Proof.
  unfold float_value, float_trunc.
  destruct (Prim2SF x) as [s|s| |s m e]; try reflexivity.
  - exists 0%Z. split; [reflexivity|]. unfold Qle, Qlt. simpl. lia.
  - destruct e as [|p|k].
    + exists (cond_Zopp s (Zpos m)). split; [reflexivity|].
      unfold Qle, Qlt, inject_Z. destruct s; simpl; lia.
    + exists (cond_Zopp s (Zpos m * 2 ^ Zpos p)). split.
      * now rewrite Z.shiftl_mul_pow2 by lia.
      * unfold Qle, Qlt, inject_Z.
        destruct s; cbn [cond_Zopp Qnum Qden]; lia.
    + exists (cond_Zopp s (Zpos m / 2 ^ Zpos k)). split.
      * change (Zneg k) with (- Zpos k)%Z.
        now rewrite Z.shiftl_opp_r, Z.shiftr_div_pow2 by lia.
      * unfold Qle, Qlt, inject_Z. cbn [Qnum Qden]. rewrite Pos2Z.inj_pow.
        assert (Hd : (0 < 2 ^ Zpos k)%Z) by (apply Z.pow_pos_nonneg; lia).
        pose proof (Z.div_mod (Zpos m) (2 ^ Zpos k)) as Hdm.
        pose proof (Z.mod_pos_bound (Zpos m) (2 ^ Zpos k) Hd) as Hr.
        destruct s; cbn [cond_Zopp]; nia.
Qed.

(** X4: the integer shown for a numeric key is the key cut off toward zero:
    on a key that is a number, [int] does not fail and returns the integer
    within one of the key on the side of zero; the only numeric keys on which
    it fails are the two infinities, with the overflow error. *)
Theorem py_int_truncates (K : library) (x : float) :
  is_nan x = false ->
  (forall q, float_value x = Some q ->
     exists z, py_int K (SNum x) = Ok z /\
               ((0 <= q)%Q -> (inject_Z z <= q)%Q /\ (q < inject_Z (z + 1))%Q) /\
               ((q <= 0)%Q -> (inject_Z (z - 1) < q)%Q /\ (q <= inject_Z z)%Q)) /\
  (float_value x = None ->
     exists msg, py_int K (SNum x) = Raise (OverflowError msg)).
Proof.
  intros Hnan. pose proof (float_trunc_value x) as H. split.
  - intros q Hq. rewrite Hq in H. destruct H as [z [Hz Hb]].
    exists z. split; [|exact Hb]. unfold py_int. now rewrite Hz.
  - intros Hq. rewrite Hq in H. unfold py_int. rewrite H, Hnan. eexists. reflexivity.
Qed.

Lemma py_int_truncates_witness :
  (exists z, py_int sequential (SNum (-3.5)%float) = Ok z /\ z = (-3)%Z) /\
  (exists msg, py_int sequential (SNum infinity) = Raise (OverflowError msg)).
Proof.
  split.
  - destruct (@py_int_truncates sequential (-3.5)%float eq_refl) as [Hfin _].
    destruct (Hfin _ eq_refl) as [z [Hz [_ Hneg]]].
    exists z. split; [exact Hz|].
    destruct Hneg as [H1 H2]; [discriminate|].
    unfold Qlt, Qle in H1, H2. simpl in H1, H2. lia.
  - destruct (@py_int_truncates sequential infinity eq_refl) as [_ Hinf].
    apply Hinf. reflexivity.
Defined.


(* ------------------------------------------------------------------ *)
(** ** The comparison when a subset has no price *)



(* ------------------------------------------------------------------ *)
(** ** The plot step and the files *)

Lemma get_column_error (d : DataFrame) (name : string) (e : exn) :
  get_column d name = Raise e -> e = KeyError name.
Proof.
  unfold get_column. destruct (find_column d name); intros H; inversion H. reflexivity.
Qed.

Lemma plot_files_and_failure
      (df : ref) (save_path : option string) (w w' : world) (res : result unit) :
  plot_area_vs_price df save_path w = (res, w') ->
  (forall p, truthy save_path <> Some p -> fs w' p = fs w p) /\
  (forall e, res = Raise e ->
             fs w' = fs w /\ trace w' = trace w ++ [Plot Figure] /\
             (e = KeyError "area" \/ e = KeyError "price")).
Proof.
  unfold plot_area_vs_price. unfold mbind at 1. cbn [plt].
  rewrite mbind_call. cbn [frames].
  destruct (get_column (frames w df) "area") as [x|e1] eqn:Hx.
  - rewrite mbind_call. cbn [frames].
    destruct (get_column (frames w df) "price") as [y|e2] eqn:Hy.
    + destruct (truthy save_path) as [path|] eqn:Ht;
        unfold mbind, plt, savefig, print, emit, ret; simpl;
        intros H; inversion H; subst; simpl; (split; [|discriminate]).
      * intros p Hp. destruct (String.eqb p path) eqn:Heq; [|reflexivity].
        apply String.eqb_eq in Heq. congruence.
      * reflexivity.
    + intros H; inversion H; subst. simpl. split; [reflexivity|].
      intros e He. inversion He; subst. repeat split.
      right. now apply get_column_error in Hy.
  - intros H; inversion H; subst. simpl. split; [reflexivity|].
    intros e He. inversion He; subst. repeat split.
    left. now apply get_column_error in Hx.
Qed.

(** X13: without a path to save to, be it none or the empty text, the plot
    of a well-formed table with numeric [area] and [price] columns succeeds,
    shows the figure of the two columns, and neither writes a file nor
    reports one. *)
Theorem plot_area_vs_price_without_path
        (df : ref) (save_path : option string) (w : world) (xs ys : list float) :
  save_path = None \/ save_path = Some EmptyString ->
  well_formed (frames w df) ->
  get_column (frames w df) "area" = Ok (NumCol xs) ->
  get_column (frames w df) "price" = Ok (NumCol ys) ->
  exists w', plot_area_vs_price df save_path w = (Ok tt, w') /\
             fs w' = fs w /\
             trace w' = trace w ++
                        [Plot Figure; Plot (Scatter (NumCol xs) (NumCol ys));
                         Plot (XLabel "Area (sq ft)");
                         Plot (YLabel "Price"); Plot (Title "House Area vs Price"); Show].
Proof.
  intros Hp _ Hx Hy.
  assert (Ht : truthy save_path = None) by (destruct Hp as [->| ->]; reflexivity).
  unfold plot_area_vs_price. rewrite Ht. unfold mbind at 1. cbn [plt].
  rewrite mbind_call. cbn [frames]. rewrite Hx.
  rewrite mbind_call. cbn [frames]. rewrite Hy.
  unfold mbind, plt, emit, ret. simpl. eexists. split; [reflexivity|]. simpl.
  split; [reflexivity|]. rewrite <- !app_assoc. reflexivity.
Qed.

Lemma plot_area_vs_price_without_path_witness :
  exists w',
    plot_area_vs_price O (Some EmptyString)
      (mkWorld (fun _ => None) (fun _ => sample_frame) (S O) [] []) = (Ok tt, w') /\
    fs w' = (fun _ => None) /\
    trace w' = [Plot Figure;
                Plot (Scatter (NumCol [10; 30; 20; 5]%float)
                              (NumCol [100; 200; 300; nan]%float));
                Plot (XLabel "Area (sq ft)");
                Plot (YLabel "Price"); Plot (Title "House Area vs Price"); Show].
Proof.
  apply (@plot_area_vs_price_without_path O (Some EmptyString)
           (mkWorld (fun _ => None) (fun _ => sample_frame) (S O) [] [])
           [10; 30; 20; 5]%float [100; 200; 300; nan]%float
           (or_intror eq_refl) sample_frame_well_formed eq_refl eq_refl).
Defined.

Lemma validated_columns_found_both (K : library) (d : DataFrame) :
  validate_columns K d REQUIRED = Ok tt ->
  exists x y, get_column d "area" = Ok x /\ get_column d "price" = Ok y.
Proof.
  intros Hv.
  destruct (@validated_find K d "area" Hv) as [x Hx]; [simpl; tauto|].
  destruct (@validated_find K d "price" Hv) as [y Hy]; [simpl; tauto|].
  exists x, y. unfold get_column. now rewrite Hx, Hy.
Qed.

Lemma plot_ok (df : ref) (path : string) (w : world) (x y : column) :
  path <> EmptyString ->
  get_column (frames w df) "area" = Ok x ->
  get_column (frames w df) "price" = Ok y ->
  exists w', plot_area_vs_price df (Some path) w = (Ok tt, w') /\
             fs w' path = Some (ImageFile (drawn_figure x y)).
Proof.
  intros Hpath Hx Hy.
  assert (Ht : truthy (Some path) = Some path) by (destruct path; [congruence | reflexivity]).
  unfold plot_area_vs_price. rewrite Ht. unfold mbind at 1. cbn [plt].
  rewrite mbind_call. cbn [frames]. rewrite Hx.
  rewrite mbind_call. cbn [frames]. rewrite Hy.
  unfold mbind, plt, savefig, print, emit. simpl.
  eexists. split; [reflexivity|]. simpl. now rewrite String.eqb_refl.
Qed.

(* ------------------------------------------------------------------ *)
(** ** The run and the files *)

Lemma fs_shown (w : world) (es : list event) : fs (shown w es) = fs w.
Proof. reflexivity. Qed.

(** X15: a run changes no file but the figure: in every run, completed or
    not, every other path, the data file among them, keeps its content; and
    a run that fails has written no file at all. *)
Theorem main_writes_only_the_figure
        (K : library) (read_csv : file -> result DataFrame) (w w' : world)
        (res : result unit) :
  main K read_csv w = (res, w') ->
  (forall p, p <> FIGURE_FILE -> fs w' p = fs w p) /\
  fs w' DATA_FILE = fs w DATA_FILE /\
  (forall e, res = Raise e -> fs w' = fs w).
Proof.
  intros H.
  assert (Hmain : (forall p, p <> FIGURE_FILE -> fs w' p = fs w p) /\
                  (forall e, res = Raise e -> fs w' = fs w)).
  { unfold main in H. apply mbind_inv in H.
    destruct H as [[e [Hload ->]]|[df [w1 [Hload H]]]].
    { destruct (load_data_world _ _ _ Hload) as [_ [Hfs _]].
      split; intros; now rewrite Hfs. }
    destruct (load_data_world _ _ _ Hload) as [_ [Hfs _]]. rewrite <- Hfs.
    rewrite mbind_call in H.
    destruct (validate_columns K (frames w1 df) REQUIRED) as [[]|e].
    2:{ inversion H; subst. split; intros; reflexivity. }
    rewrite mbind_overview, mbind_print, mbind_call, !frames_shown in H.
    destruct (avg_price_by_bedrooms K (frames w1 df)) as [s|e].
    2:{ inversion H; subst. split; intros; reflexivity. }
    rewrite !mbind_print in H.
    apply mbind_inv in H. destruct H as [[e [Hloop ->]]|[[] [w2 [Hloop H]]]].
    { apply bedrooms_loop_any in Hloop. destruct Hloop as [bs ->].
      split; intros; reflexivity. }
    apply bedrooms_loop_any in Hloop. destruct Hloop as [bs ->].
    rewrite !mbind_print, mbind_call, !frames_shown in H.
    destruct (compare_air_conditioning K (frames w1 df)) as [c|e].
    2:{ inversion H; subst. split; intros; reflexivity. }
    cbv zeta in H.
    rewrite !mbind_print, mbind_call, !frames_shown in H.
    destruct (area_price_correlation K (frames w1 df)) as [r|e].
    2:{ inversion H; subst. split; intros; reflexivity. }
    rewrite !mbind_print, !shown_shown in H.
    apply plot_files_and_failure in H. destruct H as [Hother Hfail].
    rewrite fs_shown in Hother. split.
    - intros p Hp. apply Hother. simpl. congruence.
    - intros e He. destruct (Hfail e He) as [Hfs' _]. exact Hfs'. }
  destruct Hmain as [Hother Hfail]. repeat split; try assumption.
  apply Hother. discriminate.
Qed.

Lemma main_writes_only_the_figure_witness :
  exists w', main sequential sample_parser sample_world = (Ok tt, w') /\
             fs w' DATA_FILE = fs sample_world DATA_FILE.
Proof.
  destruct main_sample_run as [w' Hrun]. exists w'. split; [exact Hrun|].
  apply (@main_writes_only_the_figure sequential sample_parser sample_world w' (Ok tt) Hrun).
Defined.

(* ------------------------------------------------------------------ *)
(** ** Validation against more columns and fewer requirements *)

Lemma validate_ok_iff (K : library) (df : DataFrame) (required : list string) :
  validate_columns K df required = Ok tt <-> forall c, In c required -> In c (columns df).
Proof.
  split.
  - intros Hv c Hc. apply has_column_In. eapply validate_ok_has; eassumption.
  - intros Hall. unfold validate_columns.
    destruct (missing_columns df required) as [|m ms] eqn:Hm; [reflexivity|].
    assert (Hin : In m (missing_columns df required)) by (rewrite Hm; now left).
    apply missing_columns_In in Hin. destruct Hin as [Hr Hn].
    exfalso. apply Hn, Hall, Hr.
Qed.

(** X17: validation looks at nothing but which names are present: a table
    that passes still passes when it gains columns, whatever their order,
    and when names are dropped from, repeated in or reordered in the list of
    requirements; with nothing required every table passes. *)
Theorem validate_columns_monotone
        (K : library) (df df' : DataFrame) (required required' : list string) :
  validate_columns K df required = Ok tt ->
  incl (columns df) (columns df') ->
  incl required' required ->
  validate_columns K df' required' = Ok tt /\ validate_columns K df' [] = Ok tt.
Proof.
  intros Hv Hcols Hreq. split; [|reflexivity].
  apply validate_ok_iff. intros c Hc.
  apply Hcols. apply (proj1 (validate_ok_iff K df required) Hv). now apply Hreq.
Qed.

Lemma validate_columns_monotone_witness :
  validate_columns sequential (("garage"%string, NumCol []) :: sample_frame)
                   ["area"; "price"; "area"]%string = Ok tt /\
  validate_columns sequential (("garage"%string, NumCol []) :: sample_frame) [] = Ok tt.
Proof.
  apply (@validate_columns_monotone sequential sample_frame
           (("garage"%string, NumCol []) :: sample_frame)
           REQUIRED ["area"; "price"; "area"]%string eq_refl).
  - intros c Hc. now right.
  - intros c Hc. simpl in *. intuition.
Defined.


(* ------------------------------------------------------------------ *)
(** ** A table of the expected types is reported to the end *)

Lemma avg_price_by_bedrooms_value
      (K : library) (df : DataFrame) (keys : column) (prices : list float) :
  find_column df "bedrooms" = Some keys ->
  find_column df "price" = Some (NumCol prices) ->
  avg_price_by_bedrooms K df = Ok (groupby_mean K (cells_of keys) prices).
Proof.
  intros Hk Hp.
  destruct (group_rows_ok (combine (cells_of keys) prices)) as [Hs _].
  fold (group_rows (cells_of keys) prices) in Hs.
  unfold avg_price_by_bedrooms, get_column. rewrite Hk, Hp. simpl.
  rewrite sort_index_sorted; [reflexivity|]. now rewrite groupby_mean_keys.
Qed.

(** The keys of a numeric column are cells of it that are not missing. *)
Lemma numeric_keys (K : library) (ks vals : list float) (item : scalar * float) :
  In item (groupby_mean K (cells_of (NumCol ks)) vals) ->
  exists x, fst item = SNum x /\ In x ks /\ is_nan x = false.
Proof.
  intros Hin.
  assert (Hk : In (fst item) (map fst (groupby_mean K (cells_of (NumCol ks)) vals)))
    by now apply in_map.
  rewrite groupby_mean_keys in Hk.
  destruct (group_rows_ok (combine (cells_of (NumCol ks)) vals)) as [_ [Hkeys _]].
  apply Hkeys in Hk. apply in_map_iff in Hk. destruct Hk as [[c v] [Hc Hrow]].
  simpl in Hc. subst c. apply in_combine_l in Hrow. simpl in Hrow.
  apply in_map_iff in Hrow. destruct Hrow as [x [Hx Hin']].
  destruct (is_nan x) eqn:Hnan; [discriminate|].
  inversion Hx. now exists x.
Qed.

Lemma float_trunc_finite (x : float) :
  float_value x <> None -> exists z, float_trunc x = Some z.
Proof.
  intros H. pose proof (float_trunc_value x) as Hv.
  destruct (float_value x) as [q|]; [|congruence].
  destruct Hv as [z [Hz _]]. now exists z.
Qed.

Lemma bedrooms_loop_numeric (K : library) (s : Series) (w : world) :
  (forall item, In item s -> exists x, fst item = SNum x /\ float_value x <> None) ->
  exists bs,
    for_each s
      (fun item =>
         mbind (lift (py_int K (fst item)))
               (fun b => print (Formatted [IntOf b; Lit " bedroom(s): ";
                                           format_currency (snd item)]))) w
    = (Ok tt, shown w (bedrooms_lines bs s)).
Proof.
  revert w. induction s as [|item s IH]; intros w Hk.
  - exists []. simpl. unfold ret. now rewrite shown_nil.
  - destruct (Hk item (or_introl eq_refl)) as [x [Hx Hfin]].
    destruct (@float_trunc_finite x Hfin) as [z Hz].
    destruct (IH (shown w [bedrooms_line z item]))
      as [bs Hbs]; [intros i Hi; apply Hk; now right|].
    exists (z :: bs).
    cbn [for_each]. unfold mbind at 1. unfold mbind at 1. unfold lift. rewrite Hx.
    unfold py_int. rewrite Hz.
    etransitivity; [exact Hbs|]. rewrite shown_shown. reflexivity.
Qed.

Lemma validate_required_present (K : library) (d : DataFrame) (c1 c2 c3 c4 : column) :
  find_column d "bedrooms" = Some c1 ->
  find_column d "price" = Some c2 ->
  find_column d "airconditioning" = Some c3 ->
  find_column d "area" = Some c4 ->
  validate_columns K d REQUIRED = Ok tt.
Proof.
  intros H1 H2 H3 H4.
  unfold validate_columns, missing_columns, REQUIRED. simpl.
  rewrite (proj2 (find_column_has d "bedrooms") (ex_intro _ c1 H1)).
  rewrite (proj2 (find_column_has d "price") (ex_intro _ c2 H2)).
  rewrite (proj2 (find_column_has d "airconditioning") (ex_intro _ c3 H3)).
  rewrite (proj2 (find_column_has d "area") (ex_intro _ c4 H4)).
  reflexivity.
Qed.

(** X16: a data file that exists and parses to a well-formed table with
    numeric [bedrooms], [price] and [area] columns and an [airconditioning]
    column, no bedrooms cell being an infinity, is reported to the end: the
    run returns without error and has written the figure of area against
    price. *)
Theorem main_completes_on_typed_table
        (K : library) (read_csv : file -> result DataFrame) (w : world) (f : file)
        (d : DataFrame) (bedrooms prices areas : list float) (flags : column) :
  fs w DATA_FILE = Some f ->
  read_csv f = Ok d ->
  well_formed d ->
  find_column d "bedrooms" = Some (NumCol bedrooms) ->
  find_column d "price" = Some (NumCol prices) ->
  find_column d "airconditioning" = Some flags ->
  find_column d "area" = Some (NumCol areas) ->
  (forall x, In x bedrooms -> is_nan x = false -> float_value x <> None) ->
  exists w', main K read_csv w = (Ok tt, w') /\
             fs w' FIGURE_FILE =
               Some (ImageFile (drawn_figure (NumCol areas) (NumCol prices))).
Proof.
  intros Hf Hr _ Hb Hp Ha Har Hfin.
  unfold main. unfold mbind at 1. unfold load_data at 1. rewrite Hf, Hr.
  unfold new_frame at 1.
  set (w1 := mkWorld (fs w) (fun r => if Nat.eqb r (next_ref w) then d else frames w r)
                     (S (next_ref w)) (pending_plot w) (trace w)).
  assert (Hd : frames w1 (next_ref w) = d) by (unfold w1; simpl; now rewrite Nat.eqb_refl).
  rewrite mbind_call, Hd, (@validate_required_present K d _ _ _ _ Hb Hp Ha Har).
  rewrite mbind_overview, mbind_print, mbind_call, !frames_shown, Hd.
  rewrite (@avg_price_by_bedrooms_value K _ _ _ Hb Hp).
  rewrite !mbind_print.
  destruct (@bedrooms_loop_numeric K (groupby_mean K (cells_of (NumCol bedrooms)) prices)
              (shown
                 (shown
                    (shown (shown w1 (overview_report d))
                       [Print (Text "=== Question 1: Average price by number of bedrooms ===")])
                    [Print (SeriesRows (groupby_mean K (cells_of (NumCol bedrooms)) prices))])
                 [Print (Text (nl ++ "(Formatted)"))]))
    as [bs Hloop].
  { intros item Hitem. destruct (@numeric_keys K _ _ _ Hitem) as [x [Hx [Hin Hnan]]].
    exists x. split; [assumption | now apply Hfin]. }
  unfold mbind at 1. rewrite Hloop.
  rewrite !mbind_print, mbind_call, !frames_shown, Hd.
  unfold compare_air_conditioning.
  rewrite (@mean_where_flag K _ _ "yes"%string _ _ _ Ha Hp),
          (@mean_where_flag K _ _ "no"%string _ _ _ Ha Hp).
  cbn [bind]. cbv zeta.
  rewrite !mbind_print, mbind_call, !frames_shown, Hd.
  unfold area_price_correlation, get_column. rewrite Har, Hp. cbn [bind series_corr].
  rewrite !mbind_print, !shown_shown.
  apply plot_ok; [discriminate | |]; rewrite frames_shown, Hd; unfold get_column.
  - now rewrite Har.
  - now rewrite Hp.
Qed.

Lemma main_completes_on_typed_table_witness :
  exists w', main sequential sample_parser sample_world = (Ok tt, w') /\
             fs w' FIGURE_FILE =
               Some (ImageFile
                       (drawn_figure (NumCol [10; 30; 20; 5]%float)
                                     (NumCol [100; 200; 300; nan]%float))).
Proof.
  apply (@main_completes_on_typed_table sequential sample_parser sample_world
           (TextFile "price,area") sample_frame
           [2; 2; 3; 4]%float [100; 200; 300; nan]%float [10; 30; 20; 5]%float
           (StrCol [Some "yes"; Some "no"; Some "yes"; None]%string)
           eq_refl eq_refl sample_frame_well_formed eq_refl eq_refl eq_refl eq_refl).
  intros x Hx _. simpl in Hx.
  repeat (destruct Hx as [<-|Hx]; [discriminate|]). destruct Hx.
Defined.

(** A bedrooms cell that is an infinity passes the validation and stops the
    run in the formatted list, with the overflow error of [int]. *)
Example main_stops_on_infinite_key :
  fst (main sequential
         (fun _ => Ok [("bedrooms"%string, NumCol [2; infinity]%float);
                       ("price"%string, NumCol [100; 200]%float);
                       ("airconditioning"%string, StrCol [Some "yes"; Some "no"]%string);
                       ("area"%string, NumCol [10; 20]%float)])
         sample_world)
  = Raise (OverflowError "cannot convert float infinity to integer").
Proof. reflexivity. Qed.

(* ------------------------------------------------------------------ *)
(** ** What the overview reports *)

Lemma rows_of_well_formed (d : DataFrame) (c : column) :
  well_formed d -> In c (map snd d) -> col_length c = n_rows d.
Proof.
  intros [_ Hlen] Hin. destruct d as [|[n c0] rest]; [destruct Hin|].
  simpl. apply Hlen; [assumption | now left].
Qed.

Lemma head_column_length (n : nat) (c : column) :
  col_length (head_column n c) = Nat.min n (col_length c).
Proof. destruct c; simpl; apply length_firstn. Qed.

Lemma cells_length (c : column) : List.length (cells c) = col_length c.
Proof. destruct c; simpl; apply length_map. Qed.

Lemma head_column_cells (n : nat) (c : column) :
  cells (head_column n c) = firstn n (cells c).
Proof. destruct c; simpl; now rewrite firstn_map. Qed.

Lemma find_column_head (d : DataFrame) (name : string) (c : column) :
  find_column d name = Some c ->
  find_column (head d) name = Some (head_column 5 c).
Proof.
  induction d as [|[n c0] d IH]; simpl; [discriminate|].
  destruct (String.eqb name n); [intros H; now inversion H | exact IH].
Qed.

Lemma count_missing_cells (c : column) :
  count_true (isna c) = List.length (filter cell_missing (cells c)).
Proof.
  unfold count_true.
  destruct c as [l|l]; simpl; induction l as [|x l IH]; simpl; try reflexivity.
  - destruct (is_nan x); simpl; now rewrite IH.
  - destruct x; simpl; now rewrite IH.
Qed.

Lemma filter_length_zero (A : Type) (p : A -> bool) (l : list A) :
  List.length (filter p l) = O <-> forall x, In x l -> p x = false.
Proof.
  induction l as [|a l IH]; simpl.
  - split; [intros _ x [] | reflexivity].
  - destruct (p a) eqn:Hp; simpl.
    + split; [discriminate|]. intros H. specialize (H a (or_introl eq_refl)). congruence.
    + rewrite IH. split.
      * intros H x [<-|Hx]; [assumption | now apply H].
      * intros H x Hx. apply H. now right.
Qed.

Lemma find_column_entry (d : DataFrame) (name : string) (c : column) :
  find_column d name = Some c -> In (name, c) d.
Proof.
  induction d as [|[n c0] d IH]; simpl; [discriminate|].
  destruct (String.eqb name n) eqn:He.
  - intros H. inversion H; subst. apply String.eqb_eq in He. subst. now left.
  - intros H. right. now apply IH.
Qed.

Lemma unique_entry (d : DataFrame) (name : string) (c c' : column) :
  NoDup (columns d) -> In (name, c) d -> In (name, c') d -> c = c'.
Proof.
  unfold columns. induction d as [|[n c0] d IH]; simpl; [tauto|].
  intros Hnd. inversion Hnd as [|? ? Hnot Hnd']; subst.
  intros [H1|H1] [H2|H2].
  - congruence.
  - inversion H1; subst. exfalso. apply Hnot.
    change name with (fst (name, c')). now apply in_map.
  - inversion H2; subst. exfalso. apply Hnot.
    change name with (fst (name, c)). now apply in_map.
  - now apply IH.
Qed.

Lemma six_rows_well_formed : well_formed six_rows.
Proof.
  split.
  - repeat constructor; simpl; intuition discriminate.
  - simpl. intros c1 c2 H1 H2.
    repeat (destruct H1 as [H1|H1]; [subst c1|]); try contradiction;
      repeat (destruct H2 as [H2|H2]; [subst c2|]); try contradiction; reflexivity.
Qed.

(** X19: the overview never fails, writes no file and shows its ten items
    whatever the table, even an empty one.  On a well-formed table the row
    count it shows is the length of every column; the preview keeps the names
    of the columns and holds, for every column, its first five cells in
    their order, or all of them when there are fewer; and the number shown
    for a column is the number of its missing cells, one number per column,
    at most the row count, and zero exactly when no cell of the column is
    missing. *)
Theorem overview_reports_the_table (df : ref) (w : world) :
  exists w',
    print_dataset_overview df w = (Ok tt, w') /\
    fs w' = fs w /\
    trace w' = trace w ++ overview_report (frames w df) /\
    (well_formed (frames w df) ->
     (forall c, In c (map snd (frames w df)) -> col_length c = n_rows (frames w df)) /\
     columns (head (frames w df)) = columns (frames w df) /\
     (forall name c,
         find_column (frames w df) name = Some c ->
         exists c',
           find_column (head (frames w df)) name = Some c' /\
           col_length c' = Nat.min 5 (n_rows (frames w df)) /\
           (forall i, (i < 5)%nat -> nth_error (cells c') i = nth_error (cells c) i)) /\
     (forall name k, In (name, k) (isna_sum (frames w df)) ->
                     exists c, In (name, c) (frames w df) /\
                               k = List.length (filter cell_missing (cells c)) /\
                               (k <= n_rows (frames w df))%nat /\
                               (k = O <-> forall x, In x (cells c) -> cell_missing x = false)) /\
     (forall name c, find_column (frames w df) name = Some c ->
                     In (name, List.length (filter cell_missing (cells c)))
                        (isna_sum (frames w df))) /\
     (forall name k k', In (name, k) (isna_sum (frames w df)) ->
                        In (name, k') (isna_sum (frames w df)) -> k = k')).
Proof.
  exists (shown w (overview_report (frames w df))).
  split; [apply overview_run|]. split; [reflexivity|]. split; [reflexivity|].
  set (d := frames w df). intros Hwf.
  assert (Hcount : forall name k, In (name, k) (isna_sum d) ->
                     exists c, In (name, c) d /\
                               k = List.length (filter cell_missing (cells c))).
  { intros name k Hin. unfold isna_sum in Hin. apply in_map_iff in Hin.
    destruct Hin as [[n c0] [Heq Hin]]. simpl in Heq. inversion Heq; subst.
    exists c0. split; [assumption | apply count_missing_cells]. }
  split; [intros c Hc; now apply rows_of_well_formed|].
  split; [unfold head, columns; rewrite map_map; reflexivity|].
  split.
  { intros name c Hc. exists (head_column 5 c).
    split; [now apply find_column_head|]. split.
    - rewrite head_column_length.
      rewrite (@rows_of_well_formed d c Hwf); [reflexivity|].
      eapply find_column_In; eassumption.
    - intros i Hi. rewrite head_column_cells, nth_error_firstn.
      destruct (Nat.ltb_spec i 5); [reflexivity | lia]. }
  split.
  { intros name k Hin. destruct (Hcount _ _ Hin) as [c [Hc Hk]].
    exists c. split; [assumption|]. split; [assumption|]. split.
    - rewrite <- (@rows_of_well_formed d c Hwf).
      + rewrite Hk, <- cells_length. apply filter_length_le.
      + change c with (snd (name, c)). now apply in_map.
    - rewrite Hk. apply filter_length_zero. }
  split.
  { intros name c Hc. unfold isna_sum. apply in_map_iff.
    exists (name, c). split; [|now apply find_column_entry].
    simpl. now rewrite count_missing_cells. }
  intros name k k' Hk Hk'.
  destruct (Hcount _ _ Hk) as [c [Hc ->]]. destruct (Hcount _ _ Hk') as [c' [Hc' ->]].
  now rewrite (@unique_entry d name c c' (proj1 Hwf) Hc Hc').
Qed.

Lemma overview_reports_the_table_witness :
  exists w',
    print_dataset_overview O (mkWorld (fun _ => None) (fun _ => six_rows) (S O) [] [])
    = (Ok tt, w') /\
    trace w' = overview_report six_rows /\
    In ("airconditioning"%string, 3%nat) (isna_sum six_rows) /\
    exists c', find_column (head six_rows) "area" = Some c' /\
               col_length c' = 5%nat /\
               nth_error (cells c') 0 = Some (inl 11%float) /\
               nth_error (cells c') 4 = Some (inl 15%float).
Proof.
  destruct (overview_reports_the_table O
              (mkWorld (fun _ => None) (fun _ => six_rows) (S O) [] []))
    as [w' [Hrun [_ [Htrace Hwf]]]].
  destruct (Hwf six_rows_well_formed) as [_ [_ [Hhead [_ [Hcount _]]]]].
  exists w'. split; [exact Hrun|]. split; [exact Htrace|]. split.
  - exact (Hcount "airconditioning"%string
             (StrCol [None; Some "yes"; None; Some "no"; Some "yes"; None]%string) eq_refl).
  - destruct (Hhead "area"%string (NumCol [11; 12; 13; 14; 15; 16]%float) eq_refl)
      as [c' [Hfind [Hlen Hcells]]].
    exists c'. split; [exact Hfind|]. split; [exact Hlen|].
    rewrite (Hcells 0%nat), (Hcells 4%nat); [split; reflexivity | lia | lia].
Defined.
